(** * FileSanctum: the content store of [store.go]

    A shallow embedding of the addressing and storage-layout code of the
    store: the key-to-path transforms, the two sanitizers, and the
    operations [Has], [Clear], [Delete], [Write], [WriteDecrypt] and [Read]
    over an explicit file-system state.

    Go strings are byte sequences; they are modelled by [string], whose
    characters are the 8-bit [ascii] values.  File contents are byte lists
    ([list Z], every element below 256). *)

From Stdlib Require Import ZArith Lia List Ascii String Bool.
From stdpp Require Import base option list gmap strings.
Import ListNotations.

Local Open Scope Z_scope.
Local Open Scope string_scope.

(* ===================================================================== *)
(** * Strings of the Go standard library *)
(* ===================================================================== *)

Module GoStrings.

(** The characters of a string. *)
Fixpoint chars (s : string) : list ascii :=
  match s with
  | EmptyString => []
  | String c r => c :: chars r
  end.

(** [[]byte(s)]: the bytes of a string as numbers. *)
Definition bytes (s : string) : list Z :=
  map (fun c => Z.of_N (N_of_ascii c)) (chars s).

(** [s[from:to]] for [from <= to <= len(s)]. *)
Definition slice (s : string) (from to : nat) : string :=
  substring from (to - from) s.

(** [strings.Join(elems, sep)]. *)
Fixpoint Join (elems : list string) (sep : string) : string :=
  match elems with
  | [] => ""
  | [e] => e
  | e :: r => e ++ sep ++ Join r sep
  end.

(** Splitting at one separator character: [split_on c s] is
    [strings.Split(s, string(c))].  The result is never empty; the empty
    string gives one empty field. *)
Fixpoint split_on (c : ascii) (s : string) : list string :=
  match s with
  | EmptyString => [""]
  | String d r =>
      if Ascii.eqb d c then "" :: split_on c r
      else match split_on c r with
           | [] => [String d ""]
           | f :: fs => String d f :: fs
           end
  end.

Definition Split_slash (s : string) : list string := split_on "/"%char s.

(** [strings.ReplaceAll(s, string(old), string(new))] for one-byte
    [old] and [new]. *)
Fixpoint replace_char (old new : ascii) (s : string) : string :=
  match s with
  | EmptyString => EmptyString
  | String d r =>
      String (if Ascii.eqb d old then new else d) (replace_char old new r)
  end.

(** [strings.HasPrefix(s, p)]. *)
Definition HasPrefix (s p : string) : bool := String.prefix p s.

(** [strings.ToLower] on one byte below 128, and on a string of such
    bytes (bytes from 128 on are left alone by this definition; it is
    only applied to strings of ASCII letters, digits, [_] and [-]). *)
Definition lower_char (c : ascii) : ascii :=
  let n := N_of_ascii c in
  if ((65 <=? n) && (n <=? 90))%N then ascii_of_N (n + 32) else c.

Fixpoint ToLower (s : string) : string :=
  match s with
  | EmptyString => EmptyString
  | String d r => String (lower_char d) (ToLower r)
  end.

(** [true] when the character occurs in the string. *)
Fixpoint has_char (c : ascii) (s : string) : bool :=
  match s with
  | EmptyString => false
  | String d r => Ascii.eqb d c || has_char c r
  end.

End GoStrings.
Import GoStrings.

(* ===================================================================== *)
(** * [crypto/sha1] and [encoding/hex] *)
(* ===================================================================== *)

(** [sha1.Sum] is the SHA-1 function of FIPS 180-4, on 32-bit words kept
    as [Z] with the wrap-around written out. *)
Module sha1.

Definition w32 (x : Z) : Z := x mod 2 ^ 32.

Definition rotl (n x : Z) : Z :=
  w32 (Z.lor (Z.shiftl x n) (Z.shiftr x (32 - n))).

Definition add32 (x y : Z) : Z := w32 (x + y).

Definition not32 (x : Z) : Z := Z.lxor x (2 ^ 32 - 1).

(** Message padding: one [0x80] byte, zero bytes up to 56 modulo 64, the
    bit length on eight bytes, big endian. *)
Definition be_bytes (n : nat) (x : Z) : list Z :=
  map (fun i => Z.shiftr x (8 * Z.of_nat i) mod 256) (rev (seq 0 n)).

Definition pad (msg : list Z) : list Z :=
  let len := Z.of_nat (List.length msg) in
  let zeros := Z.to_nat ((55 - len) mod 64) in
  msg ++ [128] ++ repeat 0 zeros ++ be_bytes 8 (8 * len).

Fixpoint be_word (bs : list Z) (acc : Z) : Z :=
  match bs with
  | [] => acc
  | b :: r => be_word r (acc * 256 + b)
  end.

(** The sixteen big-endian words of a 64-byte block. *)
Fixpoint words (n : nat) (bs : list Z) : list Z :=
  match n with
  | O => []
  | S n' => be_word (firstn 4 bs) 0 :: words n' (skipn 4 bs)
  end.

(** The message schedule, most recent word first:
    [w t = rotl 1 (w (t-3) xor w (t-8) xor w (t-14) xor w (t-16))]. *)
Fixpoint schedule (n : nat) (ws : list Z) : list Z :=
  match n with
  | O => ws
  | S n' =>
      let x := Z.lxor (Z.lxor (nth 2 ws 0) (nth 7 ws 0))
                      (Z.lxor (nth 13 ws 0) (nth 15 ws 0)) in
      schedule n' (rotl 1 x :: ws)
  end.

Definition state : Type := Z * Z * Z * Z * Z.

Definition init : state :=
  (0x67452301, 0xEFCDAB89, 0x98BADCFE, 0x10325476, 0xC3D2E1F0).

Definition f (t : nat) (b c d : Z) : Z :=
  if (t <? 20)%nat then Z.lor (Z.land b c) (Z.land (not32 b) d)
  else if (t <? 40)%nat then Z.lxor (Z.lxor b c) d
  else if (t <? 60)%nat then
    Z.lor (Z.lor (Z.land b c) (Z.land b d)) (Z.land c d)
  else Z.lxor (Z.lxor b c) d.

Definition K (t : nat) : Z :=
  if (t <? 20)%nat then 0x5A827999
  else if (t <? 40)%nat then 0x6ED9EBA1
  else if (t <? 60)%nat then 0x8F1BBCDC
  else 0xCA62C1D6.

Definition round (st : state) (tw : nat * Z) : state :=
  let '(a, b, c, d, e) := st in
  let '(t, w) := tw in
  let temp :=
    add32 (add32 (add32 (add32 (rotl 5 a) (f t b c d)) e) (K t)) w in
  (temp, a, rotl 30 b, c, d).

Definition block (h : state) (bs : list Z) : state :=
  let ws := rev (schedule 64 (rev (words 16 bs))) in
  let '(a, b, c, d, e) :=
    fold_left round (combine (seq 0 80) ws) h in
  let '(h0, h1, h2, h3, h4) := h in
  (add32 h0 a, add32 h1 b, add32 h2 c, add32 h3 d, add32 h4 e).

Fixpoint blocks (n : nat) (h : state) (bs : list Z) : state :=
  match n with
  | O => h
  | S n' => blocks n' (block h (firstn 64 bs)) (skipn 64 bs)
  end.

(** [sha1.Sum(data)]: the 20 bytes of the digest. *)
Definition Sum (data : list Z) : list Z :=
  let p := pad data in
  let '(h0, h1, h2, h3, h4) := blocks (List.length p / 64) init p in
  be_bytes 4 h0 ++ be_bytes 4 h1 ++ be_bytes 4 h2 ++ be_bytes 4 h3
    ++ be_bytes 4 h4.

End sha1.

Module hex.

Definition hextable : string := "0123456789abcdef".

Definition digit (n : Z) : ascii :=
  match String.get (Z.to_nat n) hextable with
  | Some c => c
  | None => "0"%char
  end.

(** [hex.EncodeToString]: two lower-case digits per byte (a number
    below 256), the high nibble first. *)
Fixpoint EncodeToString (src : list Z) : string :=
  match src with
  | [] => ""
  | b :: r =>
      String (digit (Z.shiftr b 4))
        (String (digit (Z.land b 15)) (EncodeToString r))
  end.

End hex.

(* ===================================================================== *)
(** * Path keys and the two transforms *)
(* ===================================================================== *)

Record PathKey : Type := mkPathKey {
  PathName : string;
  Filename : string
}.

Definition PathTransformFunc : Type := string -> PathKey.

Definition CASPathTransformFunc (key : string) : PathKey :=
  let hash := sha1.Sum (bytes key) in
  let hashStr := hex.EncodeToString hash in
  let blocksize := 5%nat in
  let sliceLen := (String.length hashStr / blocksize)%nat in
  let paths :=
    map (fun i =>
           let from := (i * blocksize)%nat in
           let to := (i * blocksize + blocksize)%nat in
           slice hashStr from to)
        (seq 0 sliceLen) in
  {| PathName := Join paths "/"; Filename := hashStr |}.

Definition DefaultPathTransformFunc (key : string) : PathKey :=
  {| PathName := key; Filename := key |}.

(** [FirstPathName]: [strings.Split] never returns an empty slice, so the
    guard on [len(paths) == 0] is dead; it is kept as in the source. *)
Definition FirstPathName (p : PathKey) : string :=
  match Split_slash (PathName p) with
  | [] => ""
  | first :: _ => first
  end.

Definition FullPath (p : PathKey) : string :=
  PathName p ++ "/" ++ Filename p.

(* ===================================================================== *)
(** * [path/filepath] on a Unix system *)
(* ===================================================================== *)

Module filepath.

(** One element of the path being cleaned; [out] is the stack of kept
    elements, the most recent first.  A [..] removes the element before
    it; where there is none it is dropped in a rooted path and kept in a
    relative one. *)
Definition clean_step (rooted : bool) (out : list string) (c : string)
  : list string :=
  if String.eqb c "" || String.eqb c "." then out
  else if String.eqb c ".." then
    match out with
    | top :: rest =>
        if String.eqb top ".." then c :: out else rest
    | [] => if rooted then out else [c]
    end
  else c :: out.

(** [filepath.Clean]. *)
Definition Clean (path : string) : string :=
  if String.eqb path "" then "."
  else
    let rooted := HasPrefix path "/" in
    let out := fold_left (clean_step rooted) (Split_slash path) [] in
    let body := Join (rev out) "/" in
    if rooted then "/" ++ body
    else if String.eqb body "" then "." else body.

Fixpoint drop_empty (elem : list string) : list string :=
  match elem with
  | [] => []
  | e :: r => if String.eqb e "" then drop_empty r else elem
  end.

(** [filepath.Join]: the leading empty elements are ignored, the rest is
    joined with the separator and cleaned; no element gives [""]. *)
Definition Join (elem : list string) : string :=
  match drop_empty elem with
  | [] => ""
  | rest => Clean (GoStrings.Join rest "/")
  end.

End filepath.

(* ===================================================================== *)
(** * The file system *)
(* ===================================================================== *)

(** The operating system is the environment of the store.  It is modelled
    as a tree of directories and regular files without symbolic links,
    permissions or capacity limits: a finite map from absolute locations
    (the list of names from the root directory) to nodes, together with
    the working directory of the process.  The root directory always
    exists. *)

Inductive Errno : Type :=
  ENOENT | ENOTDIR | EISDIR | EINVAL | EEXIST | ENOTEMPTY | EBUSY
  | EACCES | EPERM | EIO.

Inductive node : Type :=
| File (data : list Z)
| Dir.

Record FS : Type := mkFS {
  cwd : list string;
  tree : gmap (list string) node
}.

Inductive res (A : Type) : Type :=
| Ok (a : A)
| Fail (e : Errno).
Arguments Ok {A} a.
Arguments Fail {A} e.

Module os.

Definition node_at (t : gmap (list string) node) (p : list string)
  : option node :=
  match p with
  | [] => Some Dir
  | _ => t !! p
  end.

(** One step of path resolution from the directory at [cur]. *)
Definition step (cur : list string) (c : string) : list string :=
  if String.eqb c "" || String.eqb c "." then cur
  else if String.eqb c ".." then removelast cur
  else cur ++ [c].

(** Path resolution as the kernel does it: every element, also an empty
    one, [.] and [..], is looked up in what must be an existing
    directory.  The location reached by the last element need not
    exist. *)
Fixpoint walk (t : gmap (list string) node) (cur : list string)
         (comps : list string) : res (list string) :=
  match comps with
  | [] => Ok cur
  | c :: rest =>
      match node_at t cur with
      | None => Fail ENOENT
      | Some (File _) => Fail ENOTDIR
      | Some Dir => walk t (step cur c) rest
      end
  end.

Definition start (fs : FS) (path : string) : list string :=
  if HasPrefix path "/" then [] else cwd fs.

Definition resolve (fs : FS) (path : string) : res (list string) :=
  if String.eqb path "" then Fail ENOENT
  else walk (tree fs) (start fs path) (Split_slash path).

(** [os.Stat]: the node at the path. *)
Definition Stat (fs : FS) (path : string) : res node :=
  match resolve fs path with
  | Fail e => Fail e
  | Ok loc =>
      match node_at (tree fs) loc with
      | None => Fail ENOENT
      | Some n => Ok n
      end
  end.

(** [os.MkdirAll]: the directories of the path are created from the
    first missing one on; a regular file on the way, or at the end, is
    [ENOTDIR]. *)
Fixpoint mkdir_walk (t : gmap (list string) node) (cur : list string)
         (comps : list string) : gmap (list string) node * option Errno :=
  match node_at t cur with
  | None => (t, Some ENOENT)
  | Some (File _) => (t, Some ENOTDIR)
  | Some Dir =>
      match comps with
      | [] => (t, None)
      | c :: rest =>
          let next := step cur c in
          match node_at t next with
          | None => mkdir_walk (<[next := Dir]> t) next rest
          | Some _ => mkdir_walk t next rest
          end
      end
  end.

Definition MkdirAll (fs : FS) (path : string) : FS * option Errno :=
  if String.eqb path "" then (fs, Some ENOENT)
  else
    let '(t, e) := mkdir_walk (tree fs) (start fs path) (Split_slash path) in
    (mkFS (cwd fs) t, e).

(** [os.Create]: the file is created empty, or truncated when it
    exists; the open file is identified by its location. *)
Definition Create (fs : FS) (path : string) : FS * res (list string) :=
  match resolve fs path with
  | Fail e => (fs, Fail e)
  | Ok loc =>
      match node_at (tree fs) loc with
      | Some Dir => (fs, Fail EISDIR)
      | Some (File _) =>
          (mkFS (cwd fs) (<[loc := File []]> (tree fs)), Ok loc)
      | None =>
          match node_at (tree fs) (removelast loc) with
          | Some Dir =>
              (mkFS (cwd fs) (<[loc := File []]> (tree fs)), Ok loc)
          | _ => (fs, Fail ENOENT)
          end
      end
  end.

(** Writing [data] at the start of the (empty) file just created. *)
Definition write_file (fs : FS) (loc : list string) (data : list Z) : FS :=
  mkFS (cwd fs) (<[loc := File data]> (tree fs)).

(** [os.Open]: a regular file or a directory can be opened for
    reading. *)
Definition Open (fs : FS) (path : string) : res (list string) :=
  match resolve fs path with
  | Fail e => Fail e
  | Ok loc =>
      match node_at (tree fs) loc with
      | None => Fail ENOENT
      | Some _ => Ok loc
      end
  end.

(** The size a directory reports depends on the file system. *)
Definition dir_size : Z := 4096.

(** [endsWithDot]: the last element of the path is [.]. *)
Definition endsWithDot (path : string) : bool :=
  String.eqb path "." ||
  match rev (chars path) with
  | "."%char :: "/"%char :: _ => true
  | _ => false
  end.

Fixpoint drop_trailing_empty (comps : list string) : list string :=
  match comps with
  | [] => []
  | c :: rest =>
      match drop_trailing_empty rest with
      | [] => if String.eqb c "" then [] else [c]
      | rest' => c :: rest'
      end
  end.

Definition below (loc : list string) (p : list string) : bool :=
  bool_decide (loc `prefix_of` p).

Definition strictly_below (loc : list string) (p : list string) : bool :=
  below loc p && negb (bool_decide (loc = p)).

Definition remove_if (P : list string -> bool)
           (t : gmap (list string) node) : gmap (list string) node :=
  filter (fun kv => P (fst kv) = false) t.

(** [os.RemoveAll], after its implementation on Unix.  The empty path is
    a silent no-op.  A path whose last element is [.] is refused with
    [EINVAL] before anything is looked up (the check [endsWithDot]: rmdir
    does not permit removing [.], so neither does [RemoveAll]).  Trailing
    separators are ignored.  A path that does not exist is not an error;
    any other failure of the resolution is returned.  A file is removed, a
    directory is removed with everything below it.  The root directory,
    and a directory named through a last element [.] or [..], are
    emptied, and the removal of the directory itself is refused (the
    error value of these last cases is an approximation; nothing below
    depends on it). *)
Definition refused (loc : list string) (comps : list string)
  : option Errno :=
  match loc with
  | [] => Some EBUSY
  | _ =>
      if String.eqb (List.last comps "") "." then Some EINVAL
      else if String.eqb (List.last comps "") ".." then Some ENOTEMPTY
      else None
  end.

Definition RemoveAll (fs : FS) (path : string) : FS * option Errno :=
  if String.eqb path "" then (fs, None)
  else if endsWithDot path then (fs, Some EINVAL)
  else
    let comps := drop_trailing_empty (Split_slash path) in
    match walk (tree fs) (start fs path) comps with
    | Fail ENOENT => (fs, None)
    | Fail e => (fs, Some e)
    | Ok loc =>
        match node_at (tree fs) loc with
        | None => (fs, None)
        | Some _ =>
            match refused loc comps with
            | Some e =>
                (mkFS (cwd fs) (remove_if (strictly_below loc) (tree fs)),
                 Some e)
            | None =>
                (mkFS (cwd fs) (remove_if (below loc) (tree fs)), None)
            end
        end
    end.

End os.

(* ===================================================================== *)
(** * The store *)
(* ===================================================================== *)

(** A Go [error]: a failed system call, a formatted message, or the
    error of a byte stream. *)
Inductive error : Type :=
| PathError (e : Errno)
| Errorf (msg : string)
| StreamError (msg : string).

(** [errors.Is(err, os.ErrNotExist)]; [err] may be [nil]. *)
Definition Is_ErrNotExist (err : option error) : bool :=
  match err with
  | Some (PathError ENOENT) => true
  | _ => false
  end.

(** A call either returns or panics (a nil pointer or a nil function). *)
Inductive outcome (A : Type) : Type :=
| Val (a : A)
| Panic.
Arguments Val {A} a.
Arguments Panic {A}.

(** An [io.Reader] is the bytes it delivers and the error, if any, that
    ends it instead of [io.EOF]. *)
Record Reader : Type := mkReader {
  content : list Z;
  failure : option error
}.

Definition stream (b : list Z) : Reader :=
  {| content := b; failure := None |}.

Module StoreOpts.
Record t : Type := mk {
  Root : string;
  PathTransformFunc : option PathTransformFunc;
  ListenAddr : string
}.
(** The zero value of the struct. *)
Definition zero : t :=
  {| Root := ""; PathTransformFunc := None; ListenAddr := "" |}.
End StoreOpts.

(** [Store] embeds a [StoreOpts] (the field [Opts]) and declares fields
    [ListenAddr], [Root] and [PathTransformFunc] of its own, which hide
    those of the embedded struct: [s.Root] and [s.PathTransformFunc] are
    the fields below.  The fields [peers] and [mu] belong to the network
    layer and are not read by any operation here; they are left out. *)
Module Store.
Record t : Type := mk {
  Opts : StoreOpts.t;
  ListenAddr : string;
  Root : string;
  storageDir : string;
  networkDir : string;
  PathTransformFunc : option PathTransformFunc
}.
End Store.

(** The closure [sanitize] that [NewStore], [Has], [openFileForWriting]
    and [readStream] each declare. *)
Definition sanitize (path : string) : string :=
  replace_char ":"%char "_"%char path.

Definition NewStore (opts : StoreOpts.t) : Store.t :=
  let sanitizedRoot := sanitize (StoreOpts.Root opts) in
  {| Store.Opts := StoreOpts.zero;
     Store.ListenAddr := StoreOpts.ListenAddr opts;
     Store.Root := sanitizedRoot;
     Store.storageDir := filepath.Join [sanitizedRoot ++ "_storage"];
     Store.networkDir := filepath.Join [sanitizedRoot ++ "_network"];
     Store.PathTransformFunc := Some DefaultPathTransformFunc |}.

(** The path that [Has], [openFileForWriting] and [readStream] compute
    from the path key. *)
Definition pathNameWithRoot (s : Store.t) (id : string) (pathKey : PathKey)
  : string :=
  filepath.Join
    [Store.storageDir s; sanitize id; sanitize (PathName pathKey)].

Definition fullPathWithRoot (s : Store.t) (id : string) (pathKey : PathKey)
  : string :=
  filepath.Join [pathNameWithRoot s id pathKey; sanitize (Filename pathKey)].

(** The receiver [s *Store] is [None] for a nil pointer.  Reading a
    field through a nil pointer, and calling a nil function, panic. *)
Definition Has (fs : FS) (s : option Store.t) (id key : string)
  : outcome bool :=
  match s with
  | None => Panic
  | Some s =>
      match Store.PathTransformFunc s with
      | None => Panic
      | Some transform =>
          let pathKey := transform key in
          let err :=
            match os.Stat fs (fullPathWithRoot s id pathKey) with
            | Ok _ => None
            | Fail e => Some (PathError e)
            end in
          Val (negb (Is_ErrNotExist err))
      end
  end.

Definition Clear (fs : FS) (s : option Store.t)
  : outcome (FS * option error) :=
  match s with
  | None => Panic
  | Some s =>
      let '(fs', e) := os.RemoveAll fs (Store.Root s) in
      Val (fs', option_map PathError e)
  end.

Definition firstPathNameWithRoot (s : Store.t) (id : string)
           (pathKey : PathKey) : string :=
  Store.Root s ++ "/" ++ id ++ "/" ++ FirstPathName pathKey.

(** The deferred [log.Printf] of [Delete] does not touch the disk and is
    left out. *)
Definition Delete (fs : FS) (s : option Store.t) (id key : string)
  : outcome (FS * option error) :=
  match s with
  | None => Panic
  | Some s =>
      match Store.PathTransformFunc s with
      | None => Panic
      | Some transform =>
          let pathKey := transform key in
          let '(fs', e) :=
            os.RemoveAll fs (firstPathNameWithRoot s id pathKey) in
          Val (fs', option_map PathError e)
      end
  end.

(** [openFileForWriting] returns the open file (its location) or an
    error; the directories it made stay when the creation of the file
    fails. *)
Definition openFileForWriting (fs : FS) (s : option Store.t)
           (id key : string) : FS * (list string + error) :=
  match s with
  | None => (fs, inr (Errorf "store is nil"))
  | Some s =>
      match Store.PathTransformFunc s with
      | None => (fs, inr (Errorf "PathTransformFunc is not initialized"))
      | Some transform =>
          let pathKey := transform key in
          match os.MkdirAll fs (pathNameWithRoot s id pathKey) with
          | (fs1, Some e) => (fs1, inr (PathError e))
          | (fs1, None) =>
              match os.Create fs1 (fullPathWithRoot s id pathKey) with
              | (fs2, Fail e) => (fs2, inr (PathError e))
              | (fs2, Ok f) => (fs2, inl f)
              end
          end
      end
  end.

(** [io.Copy(f, r)] into the file just created: everything the reader
    delivers is written; the count and the reader's error are
    returned. *)
Definition io_Copy (fs : FS) (f : list string) (r : Reader)
  : FS * (Z * option error) :=
  (os.write_file fs f (content r),
   (Z.of_nat (List.length (content r)), failure r)).

Definition writeStream (fs : FS) (s : option Store.t) (id key : string)
           (r : Reader) : FS * (Z * option error) :=
  match openFileForWriting fs s id key with
  | (fs', inr err) => (fs', (0, Some err))
  | (fs', inl f) => io_Copy fs' f r
  end.

Definition Write (fs : FS) (s : option Store.t) (id key : string)
           (r : Reader) : FS * (Z * option error) :=
  writeStream fs s id key r.

Definition readStream (fs : FS) (s : option Store.t) (id key : string)
  : outcome (Z * option Reader * option error) :=
  match s with
  | None => Panic
  | Some s =>
      match Store.PathTransformFunc s with
      | None => Panic
      | Some transform =>
          let pathKey := transform key in
          match os.Open fs (fullPathWithRoot s id pathKey) with
          | Fail e => Val (0, None, Some (PathError e))
          | Ok file =>
              match os.node_at (tree fs) file with
              | Some (File data) =>
                  Val (Z.of_nat (List.length data), Some (stream data), None)
              | _ =>
                  Val (os.dir_size,
                       Some {| content := [];
                               failure := Some (PathError EISDIR) |},
                       None)
              end
          end
      end
  end.

Definition Read (fs : FS) (s : option Store.t) (id key : string)
  : outcome (Z * option Reader * option error) :=
  readStream fs s id key.

(** [copyDecrypt] is defined in another file of the package; the store
    only passes the key, the reader and the open file to it.  It is a
    parameter here: from the key and the reader it gives the bytes it
    writes to the file, the count it returns and its error. *)
Section WriteDecrypt.
Variable copyDecrypt :
  list Z -> Reader -> list Z * (Z * option error).

Definition WriteDecrypt (fs : FS) (encKey : list Z) (s : option Store.t)
           (id key : string) (r : Reader) : FS * (Z * option error) :=
  match openFileForWriting fs s id key with
  | (fs', inr err) => (fs', (0, Some err))
  | (fs', inl f) =>
      let '(written, (n, err)) := copyDecrypt encKey r in
      (os.write_file fs' f written, (n, err))
  end.
End WriteDecrypt.

(** The strict sanitizer.  The pattern [[^a-zA-Z0-9_-]+] matches every
    maximal run of bytes outside the class, and the replacement is empty:
    what stays are the bytes of the class, in order. *)
Definition allowed (c : ascii) : bool :=
  let n := N_of_ascii c in
  (((97 <=? n) && (n <=? 122)) || ((65 <=? n) && (n <=? 90))
   || ((48 <=? n) && (n <=? 57)) || (n =? 95) || (n =? 45))%N.

Fixpoint strip (input : string) : string :=
  match input with
  | EmptyString => EmptyString
  | String c r => if allowed c then String c (strip r) else strip r
  end.

Definition sanitizePathComponent (input : string) : string :=
  let safe := strip input in
  if HasPrefix (ToLower safe) "con" || HasPrefix (ToLower safe) "aux"
  then "file_" ++ safe
  else safe.

(* ===================================================================== *)
(** * Notions used in the statements *)
(* ===================================================================== *)

(** A lower-case hexadecimal digit. *)
Definition is_lower_hex (c : ascii) : bool := has_char c hex.hextable.

(** The fragments the loop of [CASPathTransformFunc] cuts out of a
    string. *)
Definition fragments (hashStr : string) : list string :=
  map (fun i => slice hashStr (i * 5) (i * 5 + 5))
      (seq 0 (String.length hashStr / 5)).

(** A path has a [..] element. *)
Definition has_dotdot (path : string) : bool :=
  existsb (String.eqb "..") (Split_slash path).

(** The reserved device names the strict sanitizer looks for. *)
Definition reserved (safe : string) : bool :=
  HasPrefix (ToLower safe) "con" || HasPrefix (ToLower safe) "aux".

(** The last character of a string. *)
Fixpoint last_char (s : string) : option ascii :=
  match s with
  | EmptyString => None
  | String c r =>
      match r with
      | EmptyString => Some c
      | _ => last_char r
      end
  end.

(** One element of a path that is a name: not empty, not [.] or [..],
    and without a separator. *)
Definition plain_name (x : string) : bool :=
  negb (has_char "/"%char x) && negb (String.eqb x "")
  && negb (String.eqb x ".") && negb (String.eqb x "..").

(** [keeps t t' c]: every node of the tree [t] is still in [t'] at the
    same location; a directory is a directory, a file has its bytes or
    the bytes [c]. *)
Definition keeps (t t' : gmap (list string) node) (c : list Z) : Prop :=
  forall q : list string,
    match os.node_at t q with
    | Some Dir => os.node_at t' q = Some Dir
    | Some (File d) =>
        os.node_at t' q = Some (File d) \/ os.node_at t' q = Some (File c)
    | None => True
    end.

(** [within t' t]: the tree [t'] has no node that [t] does not have. *)
Definition within (t' t : gmap (list string) node) : Prop :=
  forall q : list string,
    os.node_at t' q = os.node_at t q \/ os.node_at t' q = None.

(** What a call returned, and the disk it left. *)
Definition returned {A : Type} (o : outcome (FS * A)) : outcome A :=
  match o with
  | Val (_, a) => Val a
  | Panic => Panic
  end.

Definition disk_after {A : Type} (before : FS) (o : outcome (FS * A)) : FS :=
  match o with
  | Val (fs, _) => fs
  | Panic => before
  end.

(* ===================================================================== *)
(** * A scenario *)
(* ===================================================================== *)

(** An empty disk, the working directory being its root. *)
Definition empty_fs : FS := mkFS [] ∅.

(** A disk on which the directory [net] of the network layer exists. *)
Definition net_fs : FS :=
  mkFS [] (<[ ["net"; "peers"] := File [1] ]> (<[ ["net"] := Dir ]> ∅)).

Definition net_opts : StoreOpts.t :=
  {| StoreOpts.Root := "net";
     StoreOpts.PathTransformFunc := Some CASPathTransformFunc;
     StoreOpts.ListenAddr := ":3000" |}.

(** The assignment [s.PathTransformFunc = f]. *)
Definition SetPathTransformFunc (s : Store.t) (f : option PathTransformFunc)
  : Store.t :=
  {| Store.Opts := Store.Opts s;
     Store.ListenAddr := Store.ListenAddr s;
     Store.Root := Store.Root s;
     Store.storageDir := Store.storageDir s;
     Store.networkDir := Store.networkDir s;
     Store.PathTransformFunc := f |}.

(** The store as [NewStore] builds it, and the same store with the CAS
    transform assigned afterwards. *)
Definition net_store : Store.t := NewStore net_opts.

Definition cas_store : Store.t :=
  SetPathTransformFunc net_store (Some CASPathTransformFunc).

(** The bytes of ["hi"]. *)
Definition hi : list Z := [104; 105].

(** A second store, with another root. *)
Definition tmp_store : Store.t :=
  NewStore {| StoreOpts.Root := "tmp";
              StoreOpts.PathTransformFunc := None;
              StoreOpts.ListenAddr := ":4000" |}.

(** A disk that has a file below the directory [net/peerA/3857b]. *)
Definition legacy_fs : FS :=
  mkFS [] (<[ ["net"; "peerA"; "3857b"; "old"] := File hi ]>
           (<[ ["net"; "peerA"; "3857b"] := Dir ]>
            (<[ ["net"; "peerA"] := Dir ]> (<[ ["net"] := Dir ]> ∅)))).

(** A stand-in for [copyDecrypt] in examples: every byte is flipped in
    its lowest bit; the count is that of the bytes written. *)
Definition flip_copy (encKey : list Z) (r : Reader)
  : list Z * (Z * option error) :=
  (map (fun b => Z.lxor b 1) (content r),
   (Z.of_nat (List.length (content r)), failure r)).

(* ===================================================================== *)
(** * Properties of the transforms *)
(* ===================================================================== *)

(** Test vectors of FIPS 180. *)
Example sha1_empty :
  hex.EncodeToString (sha1.Sum (bytes "")) =
  "da39a3ee5e6b4b0d3255bfef95601890afd80709".
Proof. vm_compute. reflexivity. Qed.

Example sha1_abc :
  hex.EncodeToString (sha1.Sum (bytes "abc")) =
  "a9993e364706816aba3e25717850c26c9cd0d89d".
Proof. vm_compute. reflexivity. Qed.

Example sha1_two_blocks :
  hex.EncodeToString
    (sha1.Sum (bytes "abcdbcdecdefdefgefghfghighijhijkijkljklmklmnlmnomnopnopq")) =
  "84983e441c3bd26ebaae4aa1f95129e5e54670f1".
Proof. vm_compute. reflexivity. Qed.

Section DigestShape.

Lemma be_bytes_length n x : List.length (sha1.be_bytes n x) = n.
Proof.
  unfold sha1.be_bytes.
  rewrite length_map, length_rev, length_seq. reflexivity.
Qed.

Lemma Sum_length data : List.length (sha1.Sum data) = 20%nat.
Proof.
  unfold sha1.Sum.
  destruct (sha1.blocks _ _ _) as [[[[h0 h1] h2] h3] h4].
  rewrite !length_app, !be_bytes_length. reflexivity.
Qed.

Lemma EncodeToString_length src :
  String.length (hex.EncodeToString src) = (2 * List.length src)%nat.
Proof.
  induction src as [|b r IH]; simpl; [reflexivity|].
  rewrite IH. lia.
Qed.

Lemma get_has_char s : forall n c,
  String.get n s = Some c -> has_char c s = true.
Proof.
  induction s as [|d r IH]; intros n c H; simpl in *; [discriminate|].
  destruct n as [|n].
  - injection H as ->. rewrite Ascii.eqb_refl. reflexivity.
  - rewrite (IH _ _ H). apply orb_true_r.
Qed.

Lemma digit_is_lower_hex n : is_lower_hex (hex.digit n) = true.
Proof.
  unfold hex.digit, is_lower_hex.
  destruct (String.get (Z.to_nat n) hex.hextable) eqn:E.
  - eapply get_has_char; eauto.
  - reflexivity.
Qed.

Lemma EncodeToString_lower_hex src :
  Forall (fun c => is_lower_hex c = true) (chars (hex.EncodeToString src)).
Proof.
  induction src as [|b r IH]; simpl; [constructor|].
  repeat constructor; auto using digit_is_lower_hex.
Qed.

Lemma fragments_of_40 (s : string) :
  String.length s = 40%nat ->
  List.length (fragments s) = 8%nat /\
  Forall (fun f => String.length f = 5%nat) (fragments s) /\
  String.concat "" (fragments s) = s /\
  Join (fragments s) "/" <> "".
Proof.
  intros H.
  do 40 (destruct s as [|? s]; [discriminate H|]).
  destruct s; [|discriminate H].
  repeat split.
  - repeat constructor.
  - discriminate.
Qed.

End DigestShape.

(** C4.  For every key, also the empty one, [CASPathTransformFunc]
    returns a location whose file name is the hexadecimal SHA-1 digest of
    the bytes of the key: 40 characters, all lower-case hexadecimal
    digits; whose path name is eight fragments of five characters each,
    cut in order from that digest and joined with [/]; and neither
    component is empty.  Being a total function, the transform is pure and
    deterministic and cannot fail.  The digest of the empty key is the
    known SHA-1 value of the empty message. *)
Theorem CASPathTransformFunc_shape (key : string) :
  let loc := CASPathTransformFunc key in
  Filename loc = hex.EncodeToString (sha1.Sum (bytes key)) /\
  String.length (Filename loc) = 40%nat /\
  Forall (fun c => is_lower_hex c = true) (chars (Filename loc)) /\
  (exists frags : list string,
      List.length frags = 8%nat /\
      Forall (fun f => String.length f = 5%nat) frags /\
      String.concat "" frags = Filename loc /\
      PathName loc = Join frags "/") /\
  PathName loc <> "" /\ Filename loc <> "" /\
  CASPathTransformFunc "" =
    {| PathName := "da39a/3ee5e/6b4b0/d3255/bfef9/56018/90afd/80709";
       Filename := "da39a3ee5e6b4b0d3255bfef95601890afd80709" |}.
Proof.
  assert (L : String.length (hex.EncodeToString (sha1.Sum (bytes key)))
              = 40%nat).
  { rewrite EncodeToString_length, Sum_length. reflexivity. }
  destruct (fragments_of_40 _ L) as (F1 & F2 & F3 & F4).
  cbn zeta. unfold CASPathTransformFunc. cbn [Filename PathName].
  fold (fragments (hex.EncodeToString (sha1.Sum (bytes key)))).
  split; [reflexivity|].
  split; [exact L|].
  split; [apply EncodeToString_lower_hex|].
  split; [exists (fragments (hex.EncodeToString (sha1.Sum (bytes key)))); auto|].
  split; [exact F4|].
  split.
  - intros E. rewrite E in L. discriminate L.
  - vm_compute. reflexivity.
Qed.

(* ===================================================================== *)
(** * Properties of the sanitizers *)
(* ===================================================================== *)

Section Sanitizers.

Lemma strip_allowed input :
  Forall (fun c => allowed c = true) (chars (strip input)).
Proof.
  induction input as [|c r IH]; simpl; [constructor|].
  destruct (allowed c) eqn:E; simpl; auto.
Qed.

Lemma chars_app (a b : string) : chars (a ++ b) = (chars a ++ chars b)%list.
Proof.
  induction a as [|c r IH]; simpl; [reflexivity|].
  rewrite IH. reflexivity.
Qed.

Lemma sanitizePathComponent_allowed input :
  Forall (fun c => allowed c = true) (chars (sanitizePathComponent input)).
Proof.
  unfold sanitizePathComponent.
  destruct (_ || _).
  - rewrite chars_app. apply Forall_app. split.
    + repeat constructor.
    + apply strip_allowed.
  - apply strip_allowed.
Qed.

Lemma allowed_no_char (d : ascii) (s : string) :
  allowed d = false ->
  Forall (fun c => allowed c = true) (chars s) ->
  has_char d s = false.
Proof.
  intros Hd. induction s as [|c r IH]; simpl; intros H; [reflexivity|].
  inversion H as [|? ? Hc Hr]; subst.
  rewrite (IH Hr), orb_false_r.
  destruct (Ascii.eqb_spec c d) as [->|]; [|reflexivity].
  rewrite Hd in Hc. discriminate Hc.
Qed.

Lemma split_on_has_char (c d : ascii) (s : string) :
  has_char d s = false ->
  Forall (fun f => has_char d f = false) (split_on c s).
Proof.
  induction s as [|a r IH]; simpl; intros H.
  - repeat constructor.
  - apply orb_false_iff in H as [Ha Hr]. specialize (IH Hr).
    destruct (Ascii.eqb a c).
    + constructor; auto.
    + destruct (split_on c r) as [|f fs].
      * repeat constructor. simpl. rewrite Ha. reflexivity.
      * inversion IH; subst. constructor; auto.
        simpl. rewrite Ha. assumption.
Qed.

Lemma no_dot_not_dotdot (fs : list string) :
  Forall (fun f => has_char "."%char f = false) fs ->
  existsb (String.eqb "..") fs = false.
Proof.
  induction 1 as [|f fs Hf _ IH]; cbn [existsb]; [reflexivity|].
  rewrite IH, orb_false_r.
  destruct (String.eqb_spec ".." f) as [<-|]; [discriminate Hf|reflexivity].
Qed.

Lemma no_dot_no_dotdot (s : string) :
  has_char "."%char s = false -> has_dotdot s = false.
Proof.
  intros H. apply no_dot_not_dotdot, split_on_has_char, H.
Qed.

Lemma sanitizePathComponent_not_reserved input :
  reserved (sanitizePathComponent input) = false.
Proof.
  unfold sanitizePathComponent. fold (reserved (strip input)).
  destruct (reserved (strip input)) eqn:E; [reflexivity | exact E].
Qed.

Lemma sanitize_no_colon path : has_char ":"%char (sanitize path) = false.
Proof.
  unfold sanitize.
  induction path as [|c r IH]; cbn [replace_char has_char]; [reflexivity|].
  rewrite IH, orb_false_r.
  destruct (Ascii.eqb_spec c ":"%char) as [->|Hc]; [reflexivity|].
  apply Ascii.eqb_neq. exact Hc.
Qed.

Lemma sanitize_id path :
  has_char ":"%char path = false -> sanitize path = path.
Proof.
  unfold sanitize.
  induction path as [|c r IH]; cbn [replace_char has_char]; intros H;
    [reflexivity|].
  apply orb_false_iff in H as [Hc Hr].
  rewrite (IH Hr), Hc. reflexivity.
Qed.

Lemma sanitize_cons c r :
  sanitize (String c r) =
  String (if Ascii.eqb c ":"%char then "_"%char else c) (sanitize r).
Proof. reflexivity. Qed.

Lemma sanitize_split path :
  Split_slash (sanitize path) = map sanitize (Split_slash path).
Proof.
  unfold Split_slash.
  induction path as [|c r IH]; [reflexivity|].
  rewrite sanitize_cons. cbn [split_on]. rewrite IH.
  destruct (Ascii.eqb_spec c ":"%char) as [->|Hc].
  - cbn. destruct (split_on "/"%char r); reflexivity.
  - destruct (Ascii.eqb c "/"%char); [reflexivity|].
    destruct (split_on "/"%char r); cbn [map]; rewrite sanitize_cons;
      apply Ascii.eqb_neq in Hc; rewrite Hc; reflexivity.
Qed.

Lemma sanitize_eqb_dotdot f :
  String.eqb ".." (sanitize f) = String.eqb ".." f.
Proof.
  destruct f as [|a [|b [|c r]]]; simpl; try reflexivity.
  - destruct (Ascii.eqb_spec a ":"%char) as [->|]; reflexivity.
  - destruct (Ascii.eqb_spec a ":"%char) as [->|]; [reflexivity|].
    destruct (Ascii.eqb_spec b ":"%char) as [->|]; [|reflexivity].
    simpl. destruct (Ascii.eqb "." a); reflexivity.
  - destruct (Ascii.eqb_spec a ":"%char) as [->|]; [reflexivity|].
    destruct (Ascii.eqb_spec b ":"%char) as [->|]; simpl.
    + destruct (Ascii.eqb "." a); reflexivity.
    + destruct (Ascii.eqb "." a); [|reflexivity].
      destruct (Ascii.eqb "." b); reflexivity.
Qed.

Lemma sanitize_has_dotdot path :
  has_dotdot (sanitize path) = has_dotdot path.
Proof.
  unfold has_dotdot. rewrite sanitize_split.
  induction (Split_slash path) as [|f fs IH]; cbn [map existsb];
    [reflexivity|].
  rewrite sanitize_eqb_dotdot, IH. reflexivity.
Qed.

End Sanitizers.

(* ===================================================================== *)
(** * Properties of the file system *)
(* ===================================================================== *)

(** The cleaning of paths on the examples of the documentation of
    [filepath.Clean] and [filepath.Join]. *)
Example Clean_examples :
  filepath.Clean "a//b/../c/./d/" = "a/c/d" /\
  filepath.Clean "../../a/../../b" = "../../../b" /\
  filepath.Clean "/../a" = "/a" /\
  filepath.Clean "a/.." = "." /\
  filepath.Clean "" = "." /\
  filepath.Join ["a"; "b/c"] = "a/b/c" /\
  filepath.Join ["a"; ""] = "a" /\
  filepath.Join [""; ""] = "" /\
  filepath.Join ["a/b"; "../../../xyz"] = "../xyz".
Proof. vm_compute. repeat split; reflexivity. Qed.

(** The file system on a small disk: a directory cannot be made below a
    regular file, a directory cannot be opened for writing, and
    [RemoveAll] takes a directory with all it contains. *)
Example file_system_examples :
  let fs1 := fst (Write empty_fs (Some net_store) "peerA" "k" (stream hi)) in
  os.Stat fs1 "net_storage/peerA/k/k" = Ok (File hi) /\
  snd (os.MkdirAll fs1 "net_storage/peerA/k/k/sub") = Some ENOTDIR /\
  snd (os.Create fs1 "net_storage/peerA") = Fail EISDIR /\
  snd (os.Create fs1 "net_storage/nobody/k") = Fail ENOENT /\
  snd (os.RemoveAll fs1 "net_storage/peerA") = None /\
  os.Stat (fst (os.RemoveAll fs1 "net_storage/peerA")) "net_storage/peerA/k/k"
    = Fail ENOENT /\
  os.Stat (fst (os.RemoveAll fs1 "net_storage/peerA")) "net_storage"
    = Ok Dir.
Proof. vm_compute. repeat split; reflexivity. Qed.

Section FileSystem.

Implicit Types (t : gmap (list string) node) (loc cur : list string).

Lemma node_at_insert t loc n q :
  loc <> [] ->
  os.node_at (<[loc := n]> t) q =
  if decide (loc = q) then Some n else os.node_at t q.
Proof.
  intros Hloc. destruct q as [|c q]; cbn [os.node_at].
  - destruct (decide (loc = [])); [contradiction|reflexivity].
  - apply lookup_insert.
Qed.

(** A resolution that succeeds looks only at directories, so it succeeds
    with the same result in every tree that keeps them. *)
Lemma walk_mono t t' :
  (forall q, os.node_at t q = Some Dir -> os.node_at t' q = Some Dir) ->
  forall comps cur loc,
    os.walk t cur comps = Ok loc -> os.walk t' cur comps = Ok loc.
Proof.
  intros Hd. induction comps as [|c rest IH]; intros cur loc H.
  - exact H.
  - cbn [os.walk] in *.
    destruct (os.node_at t cur) as [[data|]|] eqn:E; try discriminate H.
    rewrite (Hd _ E). apply IH, H.
Qed.

Lemma walk_app t comps more : forall cur,
  os.walk t cur (comps ++ more) =
  match os.walk t cur comps with
  | Ok loc => os.walk t loc more
  | Fail e => Fail e
  end.
Proof.
  induction comps as [|c rest IH]; intros cur; [reflexivity|].
  cbn [app os.walk].
  destruct (os.node_at t cur) as [[data|]|]; auto.
Qed.

(** Resolving trailing empty elements only checks that the location
    reached is a directory. *)
Lemma walk_empties t loc k :
  os.walk t loc (repeat "" k) =
  match k with
  | O => Ok loc
  | S _ =>
      match os.node_at t loc with
      | None => Fail ENOENT
      | Some (File _) => Fail ENOTDIR
      | Some Dir => Ok loc
      end
  end.
Proof.
  induction k as [|k IH]; [reflexivity|].
  cbn [repeat os.walk].
  destruct (os.node_at t loc) as [[data|]|] eqn:E; try reflexivity.
  change (os.step loc "") with loc. rewrite IH.
  destruct k; reflexivity.
Qed.

Lemma drop_trailing_empty_spec comps :
  exists k, comps = (os.drop_trailing_empty comps ++ repeat "" k)%list.
Proof.
  induction comps as [|c rest [k IH]]; [exists O; reflexivity|].
  cbn [os.drop_trailing_empty].
  destruct (os.drop_trailing_empty rest) as [|d rest'] eqn:E.
  - destruct (String.eqb_spec c "") as [->|].
    + exists (S k). rewrite IH. reflexivity.
    + exists k. rewrite IH at 1. reflexivity.
  - exists k. rewrite IH at 1. reflexivity.
Qed.

Lemma Create_Ok fs path fs' f :
  os.Create fs path = (fs', Ok f) ->
  os.resolve fs path = Ok f /\ f <> [] /\
  os.node_at (tree fs) f <> Some Dir /\
  fs' = mkFS (cwd fs) (<[f := File []]> (tree fs)).
Proof.
  unfold os.Create. intros H.
  destruct (os.resolve fs path) as [loc|e] eqn:R; [|discriminate H].
  assert (Hne : os.node_at (tree fs) loc <> Some Dir -> loc <> []).
  { intros Hn ->. apply Hn. reflexivity. }
  destruct (os.node_at (tree fs) loc) as [[data|]|] eqn:E.
  - injection H as <- <-.
    split; [reflexivity|]. split; [apply Hne; discriminate|].
    split; [rewrite E; discriminate|reflexivity].
  - discriminate H.
  - destruct (os.node_at (tree fs) (removelast loc)) as [[data|]|];
      try discriminate H.
    injection H as <- <-.
    split; [reflexivity|]. split; [apply Hne; discriminate|].
    split; [rewrite E; discriminate|reflexivity].
Qed.

(** After a file was created at a path and written, the same path
    resolves to the file with the bytes written. *)
Lemma Create_write_Stat fs path fs' f data :
  os.Create fs path = (fs', Ok f) ->
  os.resolve (os.write_file fs' f data) path = Ok f /\
  os.node_at (tree (os.write_file fs' f data)) f = Some (File data).
Proof.
  intros H. apply Create_Ok in H as (R & Hf & Hn & ->).
  unfold os.write_file. cbn [tree cwd].
  rewrite insert_insert_eq. split.
  - unfold os.resolve in *. unfold os.start in *. cbn [tree cwd].
    destruct (String.eqb path ""); [discriminate R|].
    eapply walk_mono; [|exact R].
    intros q Hq. rewrite node_at_insert by exact Hf.
    destruct (decide (f = q)) as [->|]; [contradiction|exact Hq].
  - rewrite node_at_insert by exact Hf.
    destruct (decide (f = f)); [reflexivity|contradiction].
Qed.

(** Removing a path that does not exist changes nothing and is not an
    error, unless the last element of the path is [.]. *)
Lemma RemoveAll_absent fs path :
  os.endsWithDot path = false ->
  os.Stat fs path = Fail ENOENT ->
  os.RemoveAll fs path = (fs, None).
Proof.
  intros Hdot H. unfold os.RemoveAll. rewrite Hdot.
  unfold os.Stat, os.resolve in H.
  destruct (String.eqb path ""); [reflexivity|].
  destruct (drop_trailing_empty_spec (Split_slash path)) as [k Hk].
  rewrite Hk, walk_app in H.
  destruct (os.walk (tree fs) (os.start fs path)
              (os.drop_trailing_empty (Split_slash path)))
    as [loc|e] eqn:W.
  - rewrite walk_empties in H.
    destruct (os.node_at (tree fs) loc) as [[data|]|] eqn:E;
      [| |reflexivity]; exfalso.
    + destruct k; [rewrite E in H|]; discriminate H.
    + destruct k; rewrite E in H; discriminate H.
  - injection H as ->. reflexivity.
Qed.

End FileSystem.

(* ===================================================================== *)
(** * The path of [Delete] under the CAS transform *)
(* ===================================================================== *)

Section DeletePath.

Lemma last_char_app (a b : string) :
  b <> "" -> last_char (a ++ b) = last_char b.
Proof.
  intros Hb. induction a as [|c r IH]; [reflexivity|].
  change (String c r ++ b) with (String c (r ++ b)).
  rewrite <- IH. destruct (r ++ b) eqn:E; [|reflexivity].
  destruct r; [cbn in E; contradiction|discriminate E].
Qed.


Lemma append_nonempty (a b : string) : b <> "" -> a ++ b <> "".
Proof.
  intros Hb E. destruct a; [cbn in E; contradiction|discriminate E].
Qed.

Lemma last_char_rev (s : string) :
  last_char s = List.hd_error (rev (chars s)).
Proof.
  induction s as [|c r IH]; [reflexivity|].
  cbn [last_char chars rev]. rewrite IH.
  destruct r as [|d r']; [reflexivity|].
  cbn [chars rev]. destruct (rev (chars r')); reflexivity.
Qed.

Lemma endsWithDot_last_char (path : string) :
  os.endsWithDot path = true -> last_char path = Some "."%char.
Proof.
  unfold os.endsWithDot. intros H. apply orb_true_iff in H as [H|H].
  - apply String.eqb_eq in H as ->. reflexivity.
  - rewrite last_char_rev.
    destruct (rev (chars path)) as [|c l]; [discriminate H|].
    destruct (Ascii.eqb_spec c "."%char) as [->|Hc]; [reflexivity|].
    exfalso. destruct c as [[] [] [] [] [] [] [] []]; try discriminate H.
    apply Hc. reflexivity.
Qed.

Lemma lower_hex_not_dot_slash (c : ascii) :
  is_lower_hex c = true -> c <> "."%char /\ c <> "/"%char.
Proof.
  unfold is_lower_hex, hex.hextable. cbn [has_char].
  repeat match goal with
         | |- context [Ascii.eqb ?d c] =>
             destruct (Ascii.eqb_spec d c) as [<-|_];
               [intros _; split; discriminate|]
         end.
  discriminate.
Qed.

Lemma split_on_first (c : ascii) (f rest : string) :
  has_char c f = false ->
  split_on c (f ++ String c "" ++ rest) = f :: split_on c rest.
Proof.
  change (String c "" ++ rest) with (String c rest).
  induction f as [|d r IH]; intros H.
  - change (split_on c (String c rest) = "" :: split_on c rest).
    cbn [split_on]. rewrite Ascii.eqb_refl. reflexivity.
  - cbn [has_char] in H. apply orb_false_iff in H as [Hd Hr].
    change (split_on c (String d (r ++ String c rest))
            = String d r :: split_on c rest).
    cbn [split_on]. rewrite Hd, (IH Hr). reflexivity.
Qed.

(** The first path name of a CAS location is the first five digits of
    the digest. *)
Lemma FirstPathName_CAS (key : string) :
  exists c1 c2 c3 c4 c5 : ascii,
    FirstPathName (CASPathTransformFunc key) =
      String c1 (String c2 (String c3 (String c4 (String c5 "")))) /\
    is_lower_hex c5 = true.
Proof.
  pose proof (EncodeToString_lower_hex (sha1.Sum (bytes key))) as X.
  assert (L : String.length (hex.EncodeToString (sha1.Sum (bytes key)))
              = 40%nat).
  { rewrite EncodeToString_length, Sum_length. reflexivity. }
  unfold CASPathTransformFunc, FirstPathName. cbn [PathName].
  fold (fragments (hex.EncodeToString (sha1.Sum (bytes key)))).
  revert X L. generalize (hex.EncodeToString (sha1.Sum (bytes key))).
  intros h X L.
  do 40 (destruct h as [|? h]; [discriminate L|]).
  destruct h; [|discriminate L].
  cbn [chars] in X.
  do 5 (inversion X as [|? ? ?H X']; subst; clear X; rename X' into X).
  exists a, a0, a1, a2, a3. split; [|assumption].
  change (fragments _) with
    [String a (String a0 (String a1 (String a2 (String a3 ""))));
     String a4 (String a5 (String a6 (String a7 (String a8 ""))));
     String a9 (String a10 (String a11 (String a12 (String a13 ""))));
     String a14 (String a15 (String a16 (String a17 (String a18 ""))));
     String a19 (String a20 (String a21 (String a22 (String a23 ""))));
     String a24 (String a25 (String a26 (String a27 (String a28 ""))));
     String a29 (String a30 (String a31 (String a32 (String a33 ""))));
     String a34 (String a35 (String a36 (String a37 (String a38 ""))))].
  cbn [Join]. unfold Split_slash.
  rewrite split_on_first; [reflexivity|].
  cbn [has_char].
  repeat match goal with
         | Hx : is_lower_hex ?c = true |- _ =>
             apply lower_hex_not_dot_slash in Hx as [_ Hx];
               apply Ascii.eqb_neq in Hx; rewrite Hx; clear Hx
         end.
  reflexivity.
Qed.

(** With the CAS transform the path [Delete] computes never ends in a
    [.] element. *)
Lemma firstPathNameWithRoot_CAS_no_dot (s : Store.t) (id key : string) :
  os.endsWithDot (firstPathNameWithRoot s id (CASPathTransformFunc key))
  = false.
Proof.
  destruct (FirstPathName_CAS key) as (c1 & c2 & c3 & c4 & c5 & E & H5).
  destruct (os.endsWithDot _) eqn:D; [exfalso|reflexivity].
  apply endsWithDot_last_char in D.
  unfold firstPathNameWithRoot in D. rewrite E in D.
  rewrite !last_char_app in D
    by first [discriminate | apply append_nonempty; discriminate].
  cbn [last_char] in D. injection D as ->.
  discriminate H5.
Qed.

(** With the CAS transform, removing an object whose first-segment path
    does not exist changes nothing and is not an error. *)
Lemma Delete_absent_CAS (fs : FS) (s : Store.t) (id key : string) :
  Store.PathTransformFunc s = Some CASPathTransformFunc ->
  os.Stat fs (firstPathNameWithRoot s id (CASPathTransformFunc key))
    = Fail ENOENT ->
  Delete fs (Some s) id key = Val (fs, None).
Proof.
  intros T H. unfold Delete. rewrite T.
  rewrite (RemoveAll_absent _ _ (firstPathNameWithRoot_CAS_no_dot s id key) H).
  reflexivity.
Qed.

End DeletePath.

(* ===================================================================== *)
(** * Properties of the store *)
(* ===================================================================== *)

Lemma pair_eta {A B : Type} (p : A * B) (b : B) :
  snd p = b -> p = (fst p, b).
Proof. destruct p as [a b']. cbn. intros ->. reflexivity. Defined.

(** C1.  When [Write] of the stream of the bytes [b] succeeds, it returns
    the number of bytes, and [Read] with the same namespace and key finds
    the file at the same path: it reports the size [len(b)] and returns a
    stream delivering exactly [b]. *)
Theorem Write_then_Read (fs : FS) (s : option Store.t) (id key : string)
        (b : list Z) (fs' : FS) (n : Z) :
  Write fs s id key (stream b) = (fs', (n, None)) ->
  n = Z.of_nat (List.length b) /\
  Read fs' s id key = Val (Z.of_nat (List.length b), Some (stream b), None).
Proof.
  unfold Write, writeStream, openFileForWriting, Read, readStream.
  destruct s as [s|]; [|discriminate].
  destruct (Store.PathTransformFunc s) as [transform|]; [|discriminate].
  destruct (os.MkdirAll fs _) as [fs1 [e|]]; [discriminate|].
  destruct (os.Create fs1 _) as [fs2 [f|e]] eqn:C; [|discriminate].
  unfold io_Copy. cbn [content failure stream]. intros H.
  injection H as <- <-. split; [reflexivity|].
  destruct (Create_write_Stat _ _ _ _ b C) as [R N].
  unfold os.Open. rewrite R, N. cbv beta iota.
  rewrite N. reflexivity.
Qed.

Lemma Write_then_Read_witness :
  Read (fst (Write empty_fs (Some net_store) "peerA" "hello.txt" (stream hi)))
       (Some net_store) "peerA" "hello.txt"
  = Val (Z.of_nat (List.length hi), Some (stream hi), None).
Proof.
  refine (proj2 (Write_then_Read empty_fs (Some net_store) "peerA"
                   "hello.txt" hi _ 2 (pair_eta _ _ _))).
  vm_compute. reflexivity.
Defined.

(** C9.  Immediately after a successful [Write], [Has] with the same
    namespace and key is [true]: both compute and sanitize the same path,
    and [Write] has created the file there. *)
Theorem Write_then_Has (fs : FS) (s : option Store.t) (id key : string)
        (r : Reader) (fs' : FS) (n : Z) :
  Write fs s id key r = (fs', (n, None)) ->
  Has fs' s id key = Val true.
Proof.
  unfold Write, writeStream, openFileForWriting, Has.
  destruct s as [s|]; [|discriminate].
  destruct (Store.PathTransformFunc s) as [transform|]; [|discriminate].
  destruct (os.MkdirAll fs _) as [fs1 [e|]]; [discriminate|].
  destruct (os.Create fs1 _) as [fs2 [f|e]] eqn:C; [|discriminate].
  unfold io_Copy. intros H. injection H as <- _ _.
  destruct (Create_write_Stat _ _ _ _ (content r) C) as [R N].
  unfold os.Stat. rewrite R, N. reflexivity.
Qed.

Lemma Write_then_Has_witness :
  Has (fst (Write empty_fs (Some cas_store) "peerA" "hello.txt" (stream hi)))
      (Some cas_store) "peerA" "hello.txt"
  = Val true.
Proof.
  refine (Write_then_Has empty_fs (Some cas_store) "peerA" "hello.txt"
            (stream hi) _ 2 (pair_eta _ _ _)).
  vm_compute. reflexivity.
Defined.

(** C2.  [Clear] removes [s.Root], while the objects are written below
    [s.storageDir], a sibling directory: with root [net], after a
    successful write and a successful [Clear] (which does remove the
    directory [net]), the object is still there: [Has] is [true] and
    [Read] returns its bytes. *)
Theorem Clear_leaves_written_objects :
  let s := Some net_store in
  let fs1 := fst (Write net_fs s "peerA" "hello.txt" (stream hi)) in
  let fs2 := disk_after fs1 (Clear fs1 s) in
  Store.Root net_store = "net" /\
  Store.storageDir net_store = "net_storage" /\
  snd (Write net_fs s "peerA" "hello.txt" (stream hi)) = (2, None) /\
  os.Stat fs1 "net" = Ok Dir /\
  returned (Clear fs1 s) = Val None /\
  os.Stat fs2 "net" = Fail ENOENT /\
  Has fs2 s "peerA" "hello.txt" = Val true /\
  Read fs2 s "peerA" "hello.txt" = Val (2, Some (stream hi), None).
Proof. vm_compute. repeat split; reflexivity. Qed.

(** C3.  [Delete] removes [s.Root/id/first segment], which is not below
    the storage area where [Write] put the object: with root [net] and the
    CAS transform, after a successful write and a successful [Delete] of
    the same key the object still exists at its path. *)
Theorem Delete_leaves_written_object :
  let s := Some cas_store in
  let fs1 := fst (Write empty_fs s "peerA" "hello.txt" (stream hi)) in
  let fs2 := disk_after fs1 (Delete fs1 s "peerA" "hello.txt") in
  firstPathNameWithRoot cas_store "peerA" (CASPathTransformFunc "hello.txt")
    = "net/peerA/3857b" /\
  fullPathWithRoot cas_store "peerA" (CASPathTransformFunc "hello.txt")
    = "net_storage/peerA/3857b/67247/1862e/ab426/eba06/22e44/bd2ce/dbd5d/3857b672471862eab426eba0622e44bd2cedbd5d" /\
  snd (Write empty_fs s "peerA" "hello.txt" (stream hi)) = (2, None) /\
  returned (Delete fs1 s "peerA" "hello.txt") = Val None /\
  Has fs2 s "peerA" "hello.txt" = Val true /\
  Read fs2 s "peerA" "hello.txt" = Val (2, Some (stream hi), None).
Proof. vm_compute. repeat split; reflexivity. Qed.

(** C5.  [NewStore] does not look at the transform of its options: every
    store it builds has the identity transform, also when the options
    carry the CAS transform. *)
Theorem NewStore_ignores_options_transform :
  (forall opts : StoreOpts.t,
      Store.PathTransformFunc (NewStore opts) = Some DefaultPathTransformFunc) /\
  StoreOpts.PathTransformFunc net_opts = Some CASPathTransformFunc /\
  (exists transform : PathTransformFunc,
      Store.PathTransformFunc (NewStore net_opts) = Some transform /\
      transform "hello.txt" =
        {| PathName := "hello.txt"; Filename := "hello.txt" |} /\
      CASPathTransformFunc "hello.txt" =
        {| PathName := "3857b/67247/1862e/ab426/eba06/22e44/bd2ce/dbd5d";
           Filename := "3857b672471862eab426eba0622e44bd2cedbd5d" |}).
Proof.
  split; [reflexivity|]. split; [reflexivity|].
  exists DefaultPathTransformFunc.
  split; [reflexivity|]. split; [reflexivity|].
  vm_compute. reflexivity.
Qed.

(** C6, as the code has it.  With a transform configured [Has] always
    returns a boolean and no error: [false] exactly when the file system
    reports that the path does not exist, and [true] otherwise, that is
    when the entry exists and also when the look-up fails with any other
    error. *)
Theorem Has_false_only_when_not_exist (fs : FS) (s : Store.t)
        (id key : string) (transform : PathTransformFunc) :
  Store.PathTransformFunc s = Some transform ->
  Has fs (Some s) id key =
  Val match os.Stat fs (fullPathWithRoot s id (transform key)) with
      | Fail ENOENT => false
      | Fail _ => true
      | Ok _ => true
      end.
Proof.
  intros T. unfold Has. rewrite T.
  destruct (os.Stat fs _) as [n|[]]; reflexivity.
Qed.

Lemma Has_false_only_when_not_exist_witness :
  Has empty_fs (Some net_store) "peerA" "hello.txt" =
  Val match os.Stat empty_fs
              (fullPathWithRoot net_store "peerA"
                 (DefaultPathTransformFunc "hello.txt")) with
      | Fail ENOENT => false
      | Fail _ => true
      | Ok _ => true
      end.
Proof.
  exact (Has_false_only_when_not_exist empty_fs net_store "peerA"
           "hello.txt" DefaultPathTransformFunc eq_refl).
Defined.

(** C6 fails as stated: after ["hello.txt"] was written, the path of the
    key ["hello.txt/hello.txt"] leads through a regular file; the look-up
    fails with [ENOTDIR], which is not the not-found error, and [Has]
    answers [true]. *)
Lemma Has_other_error_counterexample :
  let s := Some net_store in
  let fs1 := fst (Write empty_fs s "peerA" "hello.txt" (stream hi)) in
  os.Stat fs1 (fullPathWithRoot net_store "peerA"
                 (DefaultPathTransformFunc "hello.txt/hello.txt"))
    = Fail ENOTDIR /\
  Has fs1 s "peerA" "hello.txt/hello.txt" = Val true /\
  Has fs1 s "peerA" "hello.txt/hello.txt" <> Val false.
Proof.
  vm_compute. split; [reflexivity|]. split; [reflexivity|discriminate].
Qed.

(** C7.  Only [openFileForWriting] checks the transform: without one,
    [Write] and [WriteDecrypt] return an error and leave the disk alone,
    while [Has], [Read] and [Delete] call the nil function and panic. *)
Theorem nil_transform_outcomes (fs : FS) (s : Store.t) (id key : string)
        (r : Reader) :
  Store.PathTransformFunc s = None ->
  Write fs (Some s) id key r
    = (fs, (0, Some (Errorf "PathTransformFunc is not initialized"))) /\
  (forall copyDecrypt encKey,
      WriteDecrypt copyDecrypt fs encKey (Some s) id key r
      = (fs, (0, Some (Errorf "PathTransformFunc is not initialized")))) /\
  Has fs (Some s) id key = Panic /\
  Read fs (Some s) id key = Panic /\
  Delete fs (Some s) id key = Panic.
Proof.
  intros H.
  unfold Write, writeStream, WriteDecrypt, openFileForWriting, Has, Read,
    readStream, Delete.
  rewrite H. repeat split; reflexivity.
Qed.

Lemma nil_transform_outcomes_witness :
  Has empty_fs (Some (SetPathTransformFunc net_store None)) "peerA" "hello.txt"
    = Panic /\
  Read empty_fs (Some (SetPathTransformFunc net_store None)) "peerA" "hello.txt"
    = Panic /\
  Delete empty_fs (Some (SetPathTransformFunc net_store None)) "peerA"
         "hello.txt" = Panic.
Proof.
  exact (proj2 (proj2 (nil_transform_outcomes empty_fs
                         (SetPathTransformFunc net_store None)
                         "peerA" "hello.txt" (stream hi) eq_refl))).
Defined.

(** C8, as the code has it.  Both sanitizers are functions of their input
    alone.  The output of the strict one consists of characters of
    [[A-Za-z0-9_-]] only, so it has no [.], no separator and no [..]
    element; it never starts, in any letter case, with [con] or [aux],
    because a stripped form that does is prefixed with [file_].  The
    lenient one replaces every [:] and nothing else: its output has no
    [:], and it has a [..] element exactly when the input has one. *)
Theorem sanitizers_guarantees (input : string) :
  let strict := sanitizePathComponent input in
  let lenient := sanitize input in
  Forall (fun c => allowed c = true) (chars strict) /\
  has_char "."%char strict = false /\
  has_char "/"%char strict = false /\
  has_dotdot strict = false /\
  reserved strict = false /\
  strict = (if reserved (strip input) then "file_" ++ strip input
            else strip input) /\
  has_char ":"%char lenient = false /\
  has_dotdot lenient = has_dotdot input.
Proof.
  cbv zeta.
  pose proof (sanitizePathComponent_allowed input) as A.
  assert (D : has_char "."%char (sanitizePathComponent input) = false)
    by (apply allowed_no_char; [reflexivity|exact A]).
  split; [exact A|]. split; [exact D|].
  split; [apply allowed_no_char; [reflexivity|exact A]|].
  split; [apply no_dot_no_dotdot, D|].
  split; [apply sanitizePathComponent_not_reserved|].
  split; [reflexivity|].
  split; [apply sanitize_no_colon|apply sanitize_has_dotdot].
Qed.

(** C8 fails as stated for the lenient sanitizer: it returns a path of
    [..] elements unchanged, and with the namespace [..] the path of an
    object is outside the storage directory. *)
Lemma sanitize_keeps_dotdot_counterexample :
  sanitize "../../etc" = "../../etc" /\
  has_dotdot (sanitize "../../etc") = true /\
  Store.storageDir net_store = "net_storage" /\
  fullPathWithRoot net_store ".." (DefaultPathTransformFunc "x") = "x/x".
Proof. vm_compute. repeat split; reflexivity. Qed.

(** C10, as the code has it.  When the path [Delete] computes does not
    exist and its last element is not [.], [Delete] returns nil and the
    disk is unchanged. *)
Theorem Delete_absent (fs : FS) (s : Store.t) (id key : string)
        (transform : PathTransformFunc) :
  Store.PathTransformFunc s = Some transform ->
  os.endsWithDot (firstPathNameWithRoot s id (transform key)) = false ->
  os.Stat fs (firstPathNameWithRoot s id (transform key)) = Fail ENOENT ->
  Delete fs (Some s) id key = Val (fs, None).
Proof.
  intros T Hdot H. unfold Delete. rewrite T.
  rewrite (RemoveAll_absent _ _ Hdot H). reflexivity.
Qed.

Lemma Delete_absent_witness :
  Delete empty_fs (Some cas_store) "peerA" "hello.txt" = Val (empty_fs, None).
Proof.
  refine (Delete_absent empty_fs cas_store "peerA" "hello.txt"
            CASPathTransformFunc eq_refl _ _);
    vm_compute; reflexivity.
Defined.

(** C10 fails as stated: with the identity transform the key [.] gives a
    path whose last element is [.]; nothing exists there, and [Delete]
    returns the error [EINVAL] of [os.RemoveAll]. *)
Lemma Delete_dot_counterexample :
  firstPathNameWithRoot net_store "peerA" (DefaultPathTransformFunc ".")
    = "net/peerA/." /\
  os.Stat empty_fs "net/peerA/." = Fail ENOENT /\
  returned (Delete empty_fs (Some net_store) "peerA" ".")
    = Val (Some (PathError EINVAL)).
Proof. vm_compute. repeat split; reflexivity. Qed.

(* ===================================================================== *)
(** * Writing keeps what is on the disk *)
(* ===================================================================== *)

Section WriteFrame.

Implicit Types (t : gmap (list string) node) (loc cur : list string).

Lemma mkdir_walk_keeps comps : forall t cur t' e,
  os.mkdir_walk t cur comps = (t', e) ->
  forall q n, os.node_at t q = Some n -> os.node_at t' q = Some n.
Proof.
  induction comps as [|c rest IH]; intros t cur t' e H q n Hq.
  - cbn [os.mkdir_walk] in H.
    destruct (os.node_at t cur) as [[d|]|]; injection H as <- _; exact Hq.
  - cbn [os.mkdir_walk] in H.
    destruct (os.node_at t cur) as [[d|]|];
      try (injection H as <- _; exact Hq).
    destruct (os.node_at t (os.step cur c)) as [m|] eqn:E.
    + eapply IH; eauto.
    + eapply IH; [exact H|].
      assert (Hne : os.step cur c <> []) by (intros Z; rewrite Z in E; discriminate E).
      rewrite node_at_insert by exact Hne.
      destruct (decide (os.step cur c = q)) as [<-|]; [congruence|exact Hq].
Qed.

(** What [openFileForWriting] leaves: the tree after [MkdirAll], with
    the new empty file in it when the call succeeds. *)
Lemma openFileForWriting_tree fs s id key fs2 o :
  openFileForWriting fs s id key = (fs2, o) ->
  cwd fs2 = cwd fs /\
  exists t1,
    (forall q n, os.node_at (tree fs) q = Some n -> os.node_at t1 q = Some n) /\
    match o with
    | inr _ => tree fs2 = t1
    | inl f =>
        f <> [] /\ os.node_at t1 f <> Some Dir /\
        tree fs2 = <[f := File []]> t1
    end.
Proof.
  unfold openFileForWriting. intros H.
  destruct s as [s|]; [|injection H as <- <-; split; eauto].
  destruct (Store.PathTransformFunc s) as [transform|];
    [|injection H as <- <-; split; eauto].
  unfold os.MkdirAll in H.
  destruct (String.eqb _ "").
  { injection H as <- <-. split; eauto. }
  destruct (os.mkdir_walk _ _ _) as [t1 e] eqn:M.
  pose proof (mkdir_walk_keeps _ _ _ _ _ M) as K.
  destruct e as [e|].
  { injection H as <- <-. split; [reflexivity|]. exists t1. split; auto. }
  destruct (os.Create _ _) as [fs2' [f|e]] eqn:C.
  - injection H as <- <-.
    apply Create_Ok in C as (_ & Hf & Hn & ->). cbn [cwd tree] in *.
    split; [reflexivity|]. exists t1. split; auto.
  - injection H as <- <-.
    assert (fs2' = mkFS (cwd fs) t1) as ->.
    { unfold os.Create in C.
      destruct (os.resolve _ _); [|injection C as <- _; reflexivity].
      destruct (os.node_at _ _) as [[d|]|];
        try (injection C as <- _; reflexivity); try discriminate C.
      destruct (os.node_at _ _) as [[d|]|];
        try (injection C as <- _; reflexivity); discriminate C. }
    split; [reflexivity|]. exists t1. split; auto.
Qed.

Lemma keeps_after_write t t1 f c :
  (forall q n, os.node_at t q = Some n -> os.node_at t1 q = Some n) ->
  f <> [] -> os.node_at t1 f <> Some Dir ->
  keeps t (<[f := File c]> t1) c.
Proof.
  intros K Hf Hn q. rewrite node_at_insert by exact Hf.
  destruct (os.node_at t q) as [[d|]|] eqn:E; [| |exact I].
  - destruct (decide (f = q)); [right; reflexivity|left; apply K, E].
  - destruct (decide (f = q)) as [->|]; [|apply K, E].
    exfalso. apply Hn, K, E.
Qed.

Lemma keeps_after_mkdir t t1 c :
  (forall q n, os.node_at t q = Some n -> os.node_at t1 q = Some n) ->
  keeps t t1 c.
Proof.
  intros K q. destruct (os.node_at t q) as [[d|]|] eqn:E; [| |exact I].
  - left. apply K, E.
  - apply K, E.
Qed.

Lemma Write_keeps fs s id key r :
  cwd (fst (Write fs s id key r)) = cwd fs /\
  keeps (tree fs) (tree (fst (Write fs s id key r))) (content r).
Proof.
  unfold Write, writeStream.
  destruct (openFileForWriting fs s id key) as [fs2 [f|err]] eqn:O;
    apply openFileForWriting_tree in O as (Hc & t1 & K & Ht).
  - destruct Ht as (Hf & Hn & Ht).
    unfold io_Copy, os.write_file. cbn [fst cwd tree]. split; [exact Hc|].
    rewrite Ht, insert_insert_eq. apply keeps_after_write; assumption.
  - cbn [fst]. split; [exact Hc|]. rewrite Ht. apply keeps_after_mkdir, K.
Qed.

Lemma walk_keeps t t' c :
  keeps t t' c ->
  forall comps cur,
    match os.walk t cur comps with
    | Ok loc => os.walk t' cur comps = Ok loc
    | Fail ENOTDIR => os.walk t' cur comps = Fail ENOTDIR
    | Fail _ => True
    end.
Proof.
  intros K. induction comps as [|x rest IH]; intros cur; [reflexivity|].
  cbn [os.walk]. pose proof (K cur) as Kc.
  destruct (os.node_at t cur) as [[d|]|]; [| |exact I].
  - destruct Kc as [-> | ->]; reflexivity.
  - rewrite Kc. apply IH.
Qed.

Lemma walk_errors t comps : forall cur e,
  os.walk t cur comps = Fail e -> e = ENOENT \/ e = ENOTDIR.
Proof.
  induction comps as [|x rest IH]; intros cur e H; [discriminate H|].
  cbn [os.walk] in H.
  destruct (os.node_at t cur) as [[d|]|]; eauto.
  - injection H as <-. right. reflexivity.
  - injection H as <-. left. reflexivity.
Qed.

Lemma Stat_errors fs path e :
  os.Stat fs path = Fail e -> e = ENOENT \/ e = ENOTDIR.
Proof.
  unfold os.Stat, os.resolve.
  destruct (String.eqb path ""); [intros H; injection H as <-; auto|].
  destruct (os.walk _ _ _) as [loc|e'] eqn:W.
  - destruct (os.node_at _ _); [discriminate|].
    intros H; injection H as <-; auto.
  - intros H; injection H as <-. eapply walk_errors, W.
Qed.

(** The look-up of a path on a disk that keeps the nodes of another. *)
Lemma Stat_keeps fs fs' c path :
  cwd fs' = cwd fs -> keeps (tree fs) (tree fs') c ->
  match os.Stat fs path with
  | Ok Dir => os.Stat fs' path = Ok Dir
  | Ok (File d) =>
      os.Stat fs' path = Ok (File d) \/ os.Stat fs' path = Ok (File c)
  | Fail ENOTDIR => os.Stat fs' path = Fail ENOTDIR
  | Fail _ => True
  end.
Proof.
  intros Hc K. unfold os.Stat, os.resolve, os.start. rewrite Hc.
  destruct (String.eqb path ""); [exact I|].
  pose proof (walk_keeps _ _ _ K (Split_slash path)
                (if HasPrefix path "/" then [] else cwd fs)) as W.
  destruct (os.walk (tree fs) _ _) as [loc|e].
  - rewrite W. pose proof (K loc) as Kl.
    destruct (os.node_at (tree fs) loc) as [[d|]|]; [| |exact I].
    + destruct Kl as [-> | ->]; auto.
    + rewrite Kl. reflexivity.
  - destruct e; try exact I. rewrite W. reflexivity.
Qed.

(** [Has] and [Read] in terms of the look-up of the object path. *)
Lemma Has_Stat fs s id key transform :
  Store.PathTransformFunc s = Some transform ->
  Has fs (Some s) id key =
  Val match os.Stat fs (fullPathWithRoot s id (transform key)) with
      | Fail ENOENT => false
      | _ => true
      end.
Proof.
  intros T. unfold Has. rewrite T.
  destruct (os.Stat fs _) as [n|[]]; reflexivity.
Qed.

Lemma Read_Stat fs s id key transform :
  Store.PathTransformFunc s = Some transform ->
  Read fs (Some s) id key =
  match os.Stat fs (fullPathWithRoot s id (transform key)) with
  | Fail e => Val (0, None, Some (PathError e))
  | Ok (File data) =>
      Val (Z.of_nat (List.length data), Some (stream data), None)
  | Ok Dir =>
      Val (os.dir_size,
           Some {| content := []; failure := Some (PathError EISDIR) |}, None)
  end.
Proof.
  intros T. unfold Read, readStream, os.Open, os.Stat. rewrite T.
  destruct (os.resolve fs _) as [loc|e]; [|reflexivity].
  destruct (os.node_at (tree fs) loc) as [[d|]|] eqn:E; cbv beta iota;
    rewrite ?E; reflexivity.
Qed.

End WriteFrame.

Section WriteResults.

Lemma mkdir_walk_Ok comps : forall t cur t',
  os.mkdir_walk t cur comps = (t', None) ->
  exists loc, os.walk t' cur comps = Ok loc /\ os.node_at t' loc = Some Dir.
Proof.
  induction comps as [|c rest IH]; intros t cur t' H.
  - cbn [os.mkdir_walk] in H.
    destruct (os.node_at t cur) as [[d|]|] eqn:E; try discriminate H.
    injection H as <-. exists cur. split; [reflexivity|exact E].
  - pose proof (mkdir_walk_keeps _ _ _ _ _ H cur) as K.
    cbn [os.mkdir_walk] in H.
    destruct (os.node_at t cur) as [[d|]|] eqn:E; try discriminate H.
    cbn [os.walk]. rewrite (K _ eq_refl).
    destruct (os.node_at t (os.step cur c)); eapply IH; exact H.
Qed.

(** After [openFileForWriting] has succeeded the store has a transform,
    the directory of the object exists, and the object path leads to the
    open file, whatever is then written to it. *)
Lemma openFileForWriting_Ok fs s id key fs2 f :
  openFileForWriting fs s id key = (fs2, inl f) ->
  exists s' transform,
    s = Some s' /\ Store.PathTransformFunc s' = Some transform /\
    forall data,
      os.Stat (os.write_file fs2 f data)
              (fullPathWithRoot s' id (transform key)) = Ok (File data) /\
      os.Stat (os.write_file fs2 f data)
              (pathNameWithRoot s' id (transform key)) = Ok Dir.
Proof.
  unfold openFileForWriting. intros H.
  destruct s as [s|]; [|discriminate H].
  destruct (Store.PathTransformFunc s) as [transform|] eqn:T;
    [|discriminate H].
  exists s, transform. split; [reflexivity|]. split; [exact T|].
  destruct (os.MkdirAll fs _) as [fs1 [e|]] eqn:M; [discriminate H|].
  destruct (os.Create fs1 _) as [fs2' [f'|e]] eqn:C; [|discriminate H].
  injection H as <- <-. intros data.
  destruct (Create_write_Stat _ _ _ _ data C) as [R N].
  split; [unfold os.Stat; rewrite R, N; reflexivity|].
  apply Create_Ok in C as (_ & Hf & Hn & ->).
  unfold os.MkdirAll in M.
  destruct (String.eqb (pathNameWithRoot s id (transform key)) "") eqn:Ep;
    [discriminate M|].
  destruct (os.mkdir_walk _ _ _) as [t1 e] eqn:W.
  injection M as <- ->. cbn [cwd tree] in *.
  apply mkdir_walk_Ok in W as (loc & Wl & Dl).
  assert (D : forall q, os.node_at t1 q = Some Dir ->
                        os.node_at (<[f' := File data]> t1) q = Some Dir).
  { intros q Hq. rewrite node_at_insert by exact Hf.
    destruct (decide (f' = q)) as [->|]; [contradiction|exact Hq]. }
  unfold os.Stat, os.resolve, os.start, os.write_file in *. cbn [cwd tree].
  rewrite Ep, insert_insert_eq.
  rewrite (walk_mono _ _ D _ _ _ Wl), (D _ Dl). reflexivity.
Qed.

End WriteResults.



(** X2.  A write never makes an object disappear: when [Has] is [true]
    before a call of [Write] it is [true] after it. *)
Theorem Write_keeps_Has (fs : FS) (s : option Store.t) (id key : string)
        (r : Reader) (s2 : option Store.t) (id2 key2 : string) :
  Has fs s2 id2 key2 = Val true ->
  Has (fst (Write fs s id key r)) s2 id2 key2 = Val true.
Proof.
  destruct s2 as [s2|]; [|discriminate].
  destruct (Store.PathTransformFunc s2) as [transform|] eqn:T;
    [|unfold Has; rewrite T; discriminate].
  rewrite !(Has_Stat _ _ _ _ _ T).
  destruct (Write_keeps fs s id key r) as [Hc K].
  pose proof (Stat_keeps fs _ _ (fullPathWithRoot s2 id2 (transform key2))
                Hc K) as S.
  destruct (os.Stat fs _) as [[d'|]|e] eqn:E.
  - intros _. destruct S as [-> | ->]; reflexivity.
  - intros _. rewrite S. reflexivity.
  - destruct (Stat_errors _ _ _ E) as [-> | ->]; [discriminate|].
    intros _. rewrite S. reflexivity.
Qed.

Lemma Write_keeps_Has_witness :
  let fs1 := fst (Write empty_fs (Some net_store) "peerA" "hello.txt"
                    (stream hi)) in
  Has (fst (Write fs1 (Some net_store) "peerA" "hello.txt/x" (stream hi)))
      (Some net_store) "peerA" "hello.txt" = Val true.
Proof.
  refine (Write_keeps_Has _ (Some net_store) "peerA" "hello.txt/x"
            (stream hi) (Some net_store) "peerA" "hello.txt" _).
  vm_compute. reflexivity.
Defined.




(** X5.  Decrypting write: when [WriteDecrypt] returns without error,
    the count is the one [copyDecrypt] returned and a following [Read]
    finds exactly the bytes [copyDecrypt] wrote, whatever function
    [copyDecrypt] is. *)
Theorem WriteDecrypt_then_Read
        (copyDecrypt : list Z -> Reader -> list Z * (Z * option error))
        (fs : FS) (encKey : list Z) (s : option Store.t) (id key : string)
        (r : Reader) (n : Z) :
  snd (WriteDecrypt copyDecrypt fs encKey s id key r) = (n, None) ->
  n = fst (snd (copyDecrypt encKey r)) /\
  Read (fst (WriteDecrypt copyDecrypt fs encKey s id key r)) s id key
    = Val (Z.of_nat (List.length (fst (copyDecrypt encKey r))),
           Some (stream (fst (copyDecrypt encKey r))), None).
Proof.
  unfold WriteDecrypt.
  destruct (openFileForWriting fs s id key) as [fs2 [f|err]] eqn:O;
    [|discriminate].
  apply openFileForWriting_Ok in O as (s' & transform & -> & T & S).
  destruct (copyDecrypt encKey r) as [written [m e]].
  cbn [fst snd]. intros H. injection H as <- ->. split; [reflexivity|].
  rewrite (Read_Stat _ _ _ _ _ T), (proj1 (S written)). reflexivity.
Qed.

Lemma WriteDecrypt_then_Read_witness :
  Read (fst (WriteDecrypt flip_copy empty_fs [7] (Some cas_store) "peerA"
               "hello.txt" (stream hi)))
       (Some cas_store) "peerA" "hello.txt"
  = Val (Z.of_nat (List.length (fst (flip_copy [7] (stream hi)))),
         Some (stream (fst (flip_copy [7] (stream hi)))), None).
Proof.
  refine (proj2 (WriteDecrypt_then_Read flip_copy empty_fs [7]
                   (Some cas_store) "peerA" "hello.txt" (stream hi) 2 _)).
  vm_compute. reflexivity.
Defined.

(** X6.  A successful [Write] has made the directories of the object:
    the directory path that [openFileForWriting] passes to [MkdirAll]
    exists as a directory afterwards. *)
Theorem Write_makes_directories (fs : FS) (s : Store.t) (id key : string)
        (r : Reader) (transform : PathTransformFunc) :
  Store.PathTransformFunc s = Some transform ->
  snd (snd (Write fs (Some s) id key r)) = None ->
  os.Stat (fst (Write fs (Some s) id key r))
          (pathNameWithRoot s id (transform key)) = Ok Dir.
Proof.
  intros T. unfold Write, writeStream.
  destruct (openFileForWriting fs (Some s) id key) as [fs2 [f|err]] eqn:O;
    [|discriminate].
  intros _.
  apply openFileForWriting_Ok in O as (s' & transform' & E & T' & S).
  injection E as <-. rewrite T in T'. injection T' as <-.
  unfold io_Copy. cbn [fst]. apply S.
Qed.

Lemma Write_makes_directories_witness :
  os.Stat (fst (Write empty_fs (Some cas_store) "peerA" "hello.txt"
                  (stream hi)))
          (pathNameWithRoot cas_store "peerA"
             (CASPathTransformFunc "hello.txt")) = Ok Dir.
Proof.
  refine (Write_makes_directories empty_fs cas_store "peerA" "hello.txt"
            (stream hi) CASPathTransformFunc eq_refl _).
  vm_compute. reflexivity.
Defined.

(* ===================================================================== *)
(** * Removing only removes *)
(* ===================================================================== *)

Section RemoveFrame.

Implicit Types (t : gmap (list string) node) (loc cur : list string).

Lemma remove_if_within P t : within (os.remove_if P t) t.
Proof.
  intros q. destruct q as [|c q]; [left; reflexivity|].
  cbn [os.node_at]. unfold os.remove_if.
  destruct (filter _ t !! (c :: q)) as [n|] eqn:E; [left|right; reflexivity].
  apply map_lookup_filter_Some in E as [E _]. symmetry. exact E.
Qed.

Lemma remove_if_gone P t loc :
  loc <> [] -> P loc = true -> os.node_at (os.remove_if P t) loc = None.
Proof.
  intros Hne HP. destruct loc as [|c q]; [contradiction|].
  cbn [os.node_at]. unfold os.remove_if.
  apply map_lookup_filter_None. right. intros x _. cbn [fst].
  rewrite HP. discriminate.
Qed.

Lemma within_refl t : within t t.
Proof. intros q. left. reflexivity. Qed.

(** What [RemoveAll] leaves has the same working directory and no new
    node. *)
Lemma RemoveAll_within fs path :
  cwd (fst (os.RemoveAll fs path)) = cwd fs /\
  within (tree (fst (os.RemoveAll fs path))) (tree fs).
Proof.
  unfold os.RemoveAll.
  destruct (String.eqb path ""); [split; [reflexivity|apply within_refl]|].
  destruct (os.endsWithDot path);
    [split; [reflexivity|apply within_refl]|].
  destruct (os.walk _ _ _) as [loc|[]];
    try (split; [reflexivity|apply within_refl]).
  destruct (os.node_at _ _); [|split; [reflexivity|apply within_refl]].
  destruct (os.refused _ _); cbn [fst cwd tree];
    (split; [reflexivity|apply remove_if_within]).
Qed.

Lemma walk_within t' t :
  within t' t ->
  forall comps cur loc,
    os.walk t cur comps = Ok loc ->
    os.walk t' cur comps = Ok loc \/ os.walk t' cur comps = Fail ENOENT.
Proof.
  intros W. induction comps as [|c rest IH]; intros cur loc H.
  - left. exact H.
  - cbn [os.walk] in *.
    destruct (os.node_at t cur) as [[d|]|] eqn:E; try discriminate H.
    destruct (W cur) as [-> | ->]; [|right; reflexivity].
    rewrite E. apply IH, H.
Qed.

Lemma walk_within_back t' t :
  within t' t ->
  forall comps cur loc,
    os.walk t' cur comps = Ok loc -> os.walk t cur comps = Ok loc.
Proof.
  intros W. apply walk_mono. intros q Hq.
  destruct (W q) as [E|E]; congruence.
Qed.

(** Once [RemoveAll] has returned nil, nothing exists at its path. *)
Lemma RemoveAll_gone fs path :
  snd (os.RemoveAll fs path) = None ->
  os.Stat (fst (os.RemoveAll fs path)) path = Fail ENOENT.
Proof.
  unfold os.RemoveAll, os.Stat, os.resolve.
  destruct (String.eqb path "") eqn:Ep; [reflexivity|].
  destruct (os.endsWithDot path); [discriminate|].
  destruct (drop_trailing_empty_spec (Split_slash path)) as [k Hk].
  set (comps := os.drop_trailing_empty (Split_slash path)) in *.
  clearbody comps. rewrite Hk.
  destruct (os.walk (tree fs) (os.start fs path) comps) as [loc|e] eqn:W.
  - destruct (os.node_at (tree fs) loc) as [n|] eqn:E.
    + destruct (os.refused loc comps) eqn:R; [discriminate|].
      intros _. cbn [fst].
      assert (Hne : loc <> []) by (intros ->; discriminate R).
      set (t' := os.remove_if (os.below loc) (tree fs)).
      assert (G : os.node_at t' loc = None).
      { apply remove_if_gone; [exact Hne|].
        unfold os.below. apply bool_decide_eq_true. reflexivity. }
      unfold os.start in *. cbn [cwd tree]. fold t'.
      rewrite walk_app.
      destruct (walk_within t' (tree fs) (remove_if_within _ _) _ _ _ W)
        as [-> | ->]; [|reflexivity].
      rewrite walk_empties. destruct k; rewrite G; reflexivity.
    + intros _. cbn [fst]. rewrite walk_app, W, walk_empties.
      destruct k; rewrite E; reflexivity.
  - destruct e; try discriminate.
    intros _. cbn [fst]. rewrite walk_app, W. reflexivity.
Qed.

End RemoveFrame.

Section RemoveResults.

Lemma Stat_within_back fs' fs path n :
  cwd fs' = cwd fs -> within (tree fs') (tree fs) ->
  os.Stat fs' path = Ok n -> os.Stat fs path = Ok n.
Proof.
  intros Hc W. unfold os.Stat, os.resolve, os.start. rewrite Hc.
  destruct (String.eqb path ""); [discriminate|].
  destruct (os.walk (tree fs') _ _) as [loc|e] eqn:E; [|discriminate].
  rewrite (walk_within_back _ _ W _ _ _ E).
  destruct (W loc) as [-> | ->]; [auto|discriminate].
Qed.

Lemma Delete_disk fs s id key :
  exists path,
    disk_after fs (Delete fs s id key) = fst (os.RemoveAll fs path).
Proof.
  unfold Delete. destruct s as [s|]; [|exists ""; reflexivity].
  destruct (Store.PathTransformFunc s) as [transform|];
    [|exists ""; reflexivity].
  exists (firstPathNameWithRoot s id (transform key)).
  destruct (os.RemoveAll fs _); reflexivity.
Qed.

Lemma Clear_disk fs s :
  exists path,
    disk_after fs (Clear fs s) = fst (os.RemoveAll fs path).
Proof.
  unfold Clear. destruct s as [s|]; [|exists ""; reflexivity].
  exists (Store.Root s). destruct (os.RemoveAll fs _); reflexivity.
Qed.

End RemoveResults.

(** X7.  After a [Delete] that returned nil nothing exists any more at
    the path it computed, [s.Root/id/first path name]: the look-up of
    that path reports not-exist, so everything that was below it is
    gone. *)
Theorem Delete_then_gone (fs : FS) (s : Store.t) (id key : string)
        (transform : PathTransformFunc) :
  Store.PathTransformFunc s = Some transform ->
  returned (Delete fs (Some s) id key) = Val None ->
  os.Stat (disk_after fs (Delete fs (Some s) id key))
          (firstPathNameWithRoot s id (transform key)) = Fail ENOENT.
Proof.
  intros T. unfold Delete. rewrite T.
  pose proof (RemoveAll_gone fs (firstPathNameWithRoot s id (transform key)))
    as G.
  destruct (os.RemoveAll fs _) as [fs' [e|]]; cbn in *; [discriminate|].
  intros _. apply G. reflexivity.
Qed.

Lemma Delete_then_gone_witness :
  os.Stat legacy_fs "net/peerA/3857b/old" = Ok (File hi) /\
  os.Stat (disk_after legacy_fs
             (Delete legacy_fs (Some cas_store) "peerA" "hello.txt"))
          (firstPathNameWithRoot cas_store "peerA"
             (CASPathTransformFunc "hello.txt")) = Fail ENOENT.
Proof.
  split; [vm_compute; reflexivity|].
  refine (Delete_then_gone legacy_fs cas_store "peerA" "hello.txt"
            CASPathTransformFunc eq_refl _).
  vm_compute. reflexivity.
Defined.

(** X8.  After a [Clear] that returned nil nothing exists any more at
    [s.Root]. *)
Theorem Clear_then_gone (fs : FS) (s : Store.t) :
  returned (Clear fs (Some s)) = Val None ->
  os.Stat (disk_after fs (Clear fs (Some s))) (Store.Root s) = Fail ENOENT.
Proof.
  unfold Clear.
  pose proof (RemoveAll_gone fs (Store.Root s)) as G.
  destruct (os.RemoveAll fs _) as [fs' [e|]]; cbn in *; [discriminate|].
  intros _. apply G. reflexivity.
Qed.

Lemma Clear_then_gone_witness :
  os.Stat net_fs "net/peers" = Ok (File [1]) /\
  os.Stat (disk_after net_fs (Clear net_fs (Some net_store)))
          (Store.Root net_store) = Fail ENOENT.
Proof.
  split; [vm_compute; reflexivity|].
  refine (Clear_then_gone net_fs net_store _).
  vm_compute. reflexivity.
Defined.

(** X9.  [Delete] and [Clear] only remove: an object that can be read
    after either of them (whatever it returned) could be read before it,
    with the same size and bytes. *)
Theorem removal_only_removes (fs fs' : FS) (s : option Store.t)
        (id key : string) (s2 : option Store.t) (id2 key2 : string)
        (n : Z) (d : list Z) :
  fs' = disk_after fs (Delete fs s id key) \/
  fs' = disk_after fs (Clear fs s) ->
  Read fs' s2 id2 key2 = Val (n, Some (stream d), None) ->
  Read fs s2 id2 key2 = Val (n, Some (stream d), None).
Proof.
  intros D.
  assert (exists path, fs' = fst (os.RemoveAll fs path)) as [path ->].
  { destruct D as [-> | ->]; [apply Delete_disk|apply Clear_disk]. }
  destruct (RemoveAll_within fs path) as [Hc W].
  destruct s2 as [s2|]; [|discriminate].
  destruct (Store.PathTransformFunc s2) as [transform|] eqn:T;
    [|unfold Read, readStream; rewrite T; discriminate].
  rewrite !(Read_Stat _ _ _ _ _ T).
  destruct (os.Stat (fst _) _) as [[d'|]|e] eqn:E; try discriminate.
  intros H. injection H as <- <-.
  rewrite (Stat_within_back _ _ _ _ Hc W E). reflexivity.
Qed.

Lemma removal_only_removes_witness :
  let fs1 := fst (Write net_fs (Some net_store) "peerA" "hello.txt"
                    (stream hi)) in
  Read fs1 (Some net_store) "peerA" "hello.txt"
    = Val (2, Some (stream hi), None).
Proof.
  refine (removal_only_removes _
            (disk_after _ (Clear
               (fst (Write net_fs (Some net_store) "peerA" "hello.txt"
                       (stream hi)))
               (Some tmp_store)))
            (Some tmp_store) "" "" (Some net_store) "peerA" "hello.txt"
            2 hi (or_intror eq_refl) _).
  vm_compute. reflexivity.
Defined.

(* ===================================================================== *)
(** * The shape of path keys and of object paths *)
(* ===================================================================== *)

Section PathShape.

Lemma append_cons (c : ascii) (a b : string) :
  String c a ++ b = String c (a ++ b).
Proof. reflexivity. Qed.

Lemma append_nil_l (b : string) : "" ++ b = b.
Proof. reflexivity. Qed.

Lemma append_assoc (a b c : string) : (a ++ b) ++ c = a ++ b ++ c.
Proof.
  induction a as [|x a IH]; [reflexivity|].
  rewrite !append_cons, IH. reflexivity.
Qed.

Lemma append_nil_r (a : string) : a ++ "" = a.
Proof.
  induction a as [|x a IH]; [reflexivity|].
  rewrite append_cons, IH. reflexivity.
Qed.

Lemma length_append (a b : string) :
  String.length (a ++ b) = (String.length a + String.length b)%nat.
Proof.
  induction a as [|x a IH]; [reflexivity|].
  rewrite append_cons. cbn [String.length]. rewrite IH. reflexivity.
Qed.

Lemma has_char_append (c : ascii) (a b : string) :
  has_char c (a ++ b) = has_char c a || has_char c b.
Proof.
  induction a as [|x a IH]; [reflexivity|].
  rewrite append_cons. cbn [has_char]. rewrite IH, orb_assoc. reflexivity.
Qed.

Lemma has_char_substring (c : ascii) (s : string) : forall n m,
  has_char c s = false -> has_char c (substring n m s) = false.
Proof.
  induction s as [|x s IH]; intros n m H.
  - destruct n, m; reflexivity.
  - cbn [has_char] in H. apply orb_false_iff in H as [Hx Hs].
    destruct n as [|n]; cbn [substring].
    + destruct m as [|m]; [reflexivity|].
      cbn [has_char]. rewrite Hx, (IH 0%nat m Hs). reflexivity.
    + apply IH, Hs.
Qed.

(** The first field of a split has no separator, and the string is that
    field alone or that field, a separator and more. *)
Lemma split_on_head (c : ascii) (s : string) :
  exists f fs,
    split_on c s = f :: fs /\ has_char c f = false /\
    ((fs = [] /\ s = f) \/ exists rest, s = f ++ String c rest).
Proof.
  induction s as [|x s (f & fs & E & Hf & Hs)].
  - exists "", []. repeat split. left. split; reflexivity.
  - cbn [split_on]. destruct (Ascii.eqb_spec x c) as [->|Hx].
    + exists "", (split_on c s). repeat split. right. exists s. reflexivity.
    + rewrite E. exists (String x f), fs. split; [reflexivity|].
      split.
      * cbn [has_char]. rewrite Hf, orb_false_r.
        apply Ascii.eqb_neq, Hx.
      * destruct Hs as [[-> ->]|[rest ->]]; [left; split; reflexivity|].
        right. exists rest. reflexivity.
Qed.

Lemma split_on_single (c : ascii) (f : string) :
  has_char c f = false -> split_on c f = [f].
Proof.
  induction f as [|x f IH]; intros H; [reflexivity|].
  cbn [has_char] in H. apply orb_false_iff in H as [Hx Hf].
  cbn [split_on]. rewrite Hx, (IH Hf). reflexivity.
Qed.

Lemma Join_cons (e : string) (l : list string) (sep : string) :
  l <> [] -> Join (e :: l) sep = e ++ sep ++ Join l sep.
Proof. destruct l; [contradiction|reflexivity]. Qed.

(** Splitting undoes joining when no field has a separator. *)
Lemma Split_Join (frags : list string) :
  frags <> [] ->
  Forall (fun f => has_char "/"%char f = false) frags ->
  Split_slash (Join frags "/") = frags.
Proof.
  unfold Split_slash. intros Hne F.
  induction F as [|f l Hf F IH]; [contradiction|].
  destruct l as [|g l].
  - apply split_on_single, Hf.
  - rewrite Join_cons by discriminate.
    rewrite split_on_first by exact Hf.
    rewrite IH by discriminate. reflexivity.
Qed.

Lemma Join_snoc (l : list string) (x sep : string) :
  l <> [] -> Join (l ++ [x]) sep = Join l sep ++ sep ++ x.
Proof.
  induction l as [|e l IH]; [contradiction|]. intros _.
  destruct l as [|g l]; [reflexivity|].
  change ((e :: g :: l) ++ [x])%list with (e :: (g :: l) ++ [x])%list.
  rewrite !Join_cons by (try discriminate; destruct l; discriminate).
  rewrite IH by discriminate. rewrite !append_assoc. reflexivity.
Qed.

Lemma Join_Join (e : string) (l : list string) :
  l <> [] -> Join [e; Join l "/"] "/" = Join (e :: l) "/".
Proof. intros H. rewrite (Join_cons e l) by exact H. reflexivity. Qed.

Lemma plain_name_spec (x : string) :
  plain_name x = true ->
  has_char "/"%char x = false /\ x <> "" /\
  String.eqb x "" || String.eqb x "." = false /\ String.eqb x ".." = false.
Proof.
  unfold plain_name. intros H.
  apply andb_true_iff in H as [H H3]. apply andb_true_iff in H as [H H2].
  apply andb_true_iff in H as [H0 H1].
  apply negb_true_iff in H0, H1, H2, H3.
  repeat split; auto.
  - intros ->. discriminate H1.
  - rewrite H1, H2. reflexivity.
Qed.

Lemma clean_steps_plain (rooted : bool) (comps : list string) :
  Forall (fun x => plain_name x = true) comps ->
  forall out,
    fold_left (filepath.clean_step rooted) comps out = (rev comps ++ out)%list.
Proof.
  induction 1 as [|x l Hx F IH]; intros out; [reflexivity|].
  cbn [fold_left rev]. unfold filepath.clean_step at 2.
  destruct (plain_name_spec x Hx) as (_ & _ & -> & ->).
  rewrite IH, <- app_assoc. reflexivity.
Qed.

Lemma Join_plain_head (x : string) (l : list string) :
  plain_name x = true ->
  String.eqb (Join (x :: l) "/") "" = false /\
  HasPrefix (Join (x :: l) "/") "/" = false.
Proof.
  intros Hx. destruct (plain_name_spec x Hx) as (Hs & Hne & _).
  destruct x as [|c x]; [contradiction|].
  cbn [has_char] in Hs. apply orb_false_iff in Hs as [Hc _].
  assert (E : exists r, Join (String c x :: l) "/" = String c r).
  { destruct l; [exists x; reflexivity|].
    rewrite Join_cons by discriminate. eexists. apply append_cons. }
  destruct E as [r ->]. split; [reflexivity|].
  unfold HasPrefix. cbn [String.prefix].
  destruct (ascii_dec "/" c) as [<-|]; [|reflexivity].
  rewrite Ascii.eqb_refl in Hc. discriminate Hc.
Qed.

(** A relative path of names only is clean. *)
Lemma Clean_plain (comps : list string) :
  comps <> [] ->
  Forall (fun x => plain_name x = true) comps ->
  filepath.Clean (Join comps "/") = Join comps "/".
Proof.
  intros Hne F. destruct comps as [|x l]; [contradiction|].
  inversion F as [|? ? Hx Fl]; subst.
  destruct (Join_plain_head x l Hx) as [E R].
  unfold filepath.Clean. rewrite E, R.
  rewrite Split_Join; [|discriminate|].
  - rewrite clean_steps_plain by exact F.
    rewrite app_nil_r, rev_involutive, E. reflexivity.
  - eapply Forall_impl; [exact F|]. intros a Ha.
    apply (plain_name_spec a Ha).
Qed.

End PathShape.

Section Layout.

Lemma lower_hex_no_char (c : ascii) (h : string) :
  is_lower_hex c = false ->
  Forall (fun x => is_lower_hex x = true) (chars h) ->
  has_char c h = false.
Proof.
  intros Hc. induction h as [|x h IH]; cbn [chars has_char]; intros F;
    [reflexivity|].
  inversion F as [|? ? Hx Fh]; subst.
  rewrite (IH Fh), orb_false_r.
  destruct (Ascii.eqb_spec x c) as [->|]; [|reflexivity].
  rewrite Hc in Hx. discriminate Hx.
Qed.

Lemma fragments_40 (h : string) :
  String.length h = 40%nat ->
  fragments h =
  [slice h 0 5; slice h 5 10; slice h 10 15; slice h 15 20;
   slice h 20 25; slice h 25 30; slice h 30 35; slice h 35 40].
Proof. intros L. unfold fragments. rewrite L. reflexivity. Qed.

Lemma fragments_no_char (c : ascii) (h : string) :
  has_char c h = false ->
  Forall (fun f => has_char c f = false) (fragments h).
Proof.
  intros H. unfold fragments. apply Forall_map, Forall_forall.
  intros i _. apply has_char_substring, H.
Qed.

Lemma plain_of_length (f : string) :
  (2 < String.length f)%nat -> has_char "/"%char f = false ->
  plain_name f = true.
Proof.
  intros L H. unfold plain_name. rewrite H.
  destruct (String.eqb_spec f "") as [->|_]; [cbn in L; lia|].
  destruct (String.eqb_spec f ".") as [->|_]; [cbn in L; lia|].
  destruct (String.eqb_spec f "..") as [->|_]; [cbn in L; lia|].
  reflexivity.
Qed.

Lemma length_substring (s : string) : forall n m,
  (n + m <= String.length s)%nat -> String.length (substring n m s) = m.
Proof.
  induction s as [|x s IH]; intros n m H; cbn [String.length] in H.
  - destruct n, m; try reflexivity; lia.
  - destruct n as [|n]; cbn [substring].
    + destruct m as [|m]; [reflexivity|].
      cbn [String.length]. rewrite IH by lia. reflexivity.
    + apply IH. lia.
Qed.

Lemma fragments_plain (h : string) :
  String.length h = 40%nat -> has_char "/"%char h = false ->
  Forall (fun f => plain_name f = true) (fragments h).
Proof.
  intros L H. pose proof (fragments_no_char _ _ H) as F.
  rewrite (fragments_40 h L) in *.
  repeat match goal with
         | F : Forall _ (_ :: _) |- _ =>
             let Hf := fresh "Hf" in
             inversion F as [|? ? Hf F']; subst; clear F; rename F' into F
         end.
  repeat constructor; (apply plain_of_length; [|assumption]);
    unfold slice; rewrite length_substring; rewrite ?L; lia.
Qed.

Lemma has_char_Join (c : ascii) (l : list string) :
  Ascii.eqb "/"%char c = false ->
  Forall (fun f => has_char c f = false) l ->
  has_char c (Join l "/") = false.
Proof.
  intros Hc. induction 1 as [|f l Hf F IH]; [reflexivity|].
  destruct l as [|g l]; [exact Hf|].
  rewrite Join_cons by discriminate.
  rewrite !has_char_append, Hf, IH. cbn [has_char]. rewrite Hc. reflexivity.
Qed.

Lemma CASPathTransformFunc_digest (key : string) :
  Filename (CASPathTransformFunc key)
    = hex.EncodeToString (sha1.Sum (bytes key)) /\
  String.length (Filename (CASPathTransformFunc key)) = 40%nat /\
  Forall (fun x => is_lower_hex x = true)
         (chars (Filename (CASPathTransformFunc key))).
Proof.
  split; [reflexivity|]. cbn [CASPathTransformFunc Filename]. split.
  - rewrite EncodeToString_length, Sum_length. reflexivity.
  - apply EncodeToString_lower_hex.
Qed.

(** The digest of a key: forty lower-case digits. *)
Lemma digest_facts (key : string) :
  let h := Filename (CASPathTransformFunc key) in
  String.length h = 40%nat /\
  PathName (CASPathTransformFunc key) = Join (fragments h) "/" /\
  has_char "/"%char h = false /\ has_char ":"%char h = false.
Proof.
  pose proof (CASPathTransformFunc_digest key) as (E & L & X).
  cbv zeta. split; [exact L|]. split; [reflexivity|].
  split; apply lower_hex_no_char; auto.
Qed.

Lemma Join_pair (a b sep : string) : Join [a; b] sep = a ++ sep ++ b.
Proof. reflexivity. Qed.

Lemma filepath_Join_head (a : string) (l : list string) :
  a <> "" -> filepath.Join (a :: l) = filepath.Clean (Join (a :: l) "/").
Proof.
  intros Ha. unfold filepath.Join. cbn [filepath.drop_empty].
  destruct (String.eqb_spec a ""); [contradiction|reflexivity].
Qed.

(** The object path when the storage directory, the namespace and the
    elements of the path key are names. *)
Lemma object_path_plain (s : Store.t) (id : string) (pk : PathKey)
      (frags : list string) :
  plain_name (Store.storageDir s) = true ->
  plain_name (sanitize id) = true ->
  frags <> [] ->
  Forall (fun x => plain_name x = true) frags ->
  sanitize (PathName pk) = Join frags "/" ->
  plain_name (sanitize (Filename pk)) = true ->
  pathNameWithRoot s id pk
    = Join (Store.storageDir s :: sanitize id :: frags) "/" /\
  fullPathWithRoot s id pk
    = Join (Store.storageDir s :: sanitize id :: frags) "/" ++ "/"
      ++ sanitize (Filename pk).
Proof.
  intros Hd Hi Hne F EP Hf.
  assert (P : pathNameWithRoot s id pk
              = Join (Store.storageDir s :: sanitize id :: frags) "/").
  { unfold pathNameWithRoot.
    rewrite filepath_Join_head by apply (plain_name_spec _ Hd).
    rewrite EP.
    replace (Join [Store.storageDir s; sanitize id; Join frags "/"] "/")
      with (Join (Store.storageDir s :: sanitize id :: frags) "/").
    - apply Clean_plain; [discriminate|]. repeat constructor; assumption.
    - rewrite !(Join_cons (Store.storageDir s)) by discriminate.
      rewrite Join_Join by exact Hne. reflexivity. }
  split; [exact P|].
  unfold fullPathWithRoot. rewrite P.
  assert (N : Join (Store.storageDir s :: sanitize id :: frags) "/" <> "").
  { intros E.
    destruct (Join_plain_head (Store.storageDir s) (sanitize id :: frags) Hd)
      as [B _].
    rewrite E in B. discriminate B. }
  rewrite filepath_Join_head by exact N.
  rewrite Join_pair.
  rewrite <- (Join_snoc (Store.storageDir s :: sanitize id :: frags))
    by discriminate.
  apply Clean_plain; [discriminate|].
  change (Store.storageDir s :: sanitize id :: frags)
    with ([Store.storageDir s; sanitize id] ++ frags)%list.
  rewrite <- app_assoc. repeat constructor; try assumption.
  apply Forall_app. split; [exact F|]. repeat constructor. exact Hf.
Qed.

End Layout.

(** X10.  [FirstPathName] returns the part of the path name before its
    first separator: it contains no separator, and the path name is
    either that part alone or that part followed by a separator and the
    rest.  The guard for an empty split never applies. *)
Theorem FirstPathName_first_segment (p : PathKey) :
  has_char "/"%char (FirstPathName p) = false /\
  (PathName p = FirstPathName p \/
   exists rest : string, PathName p = FirstPathName p ++ "/" ++ rest).
Proof.
  unfold FirstPathName, Split_slash.
  destruct (split_on_head "/"%char (PathName p)) as (f & fs & E & Hf & Hs).
  rewrite E. split; [exact Hf|].
  destruct Hs as [[_ Hs]|[rest Hs]]; [left; exact Hs|].
  right. exists rest. exact Hs.
Qed.

(** X11.  For a CAS location the first path name, the directory that
    [Delete] addresses, is the first five digits of the digest. *)
Theorem CAS_first_path_name (key : string) :
  FirstPathName (CASPathTransformFunc key)
  = substring 0 5 (Filename (CASPathTransformFunc key)).
Proof.
  destruct (digest_facts key) as (L & P & Hs & _).
  unfold FirstPathName. rewrite P.
  rewrite Split_Join.
  - rewrite (fragments_40 _ L). reflexivity.
  - rewrite (fragments_40 _ L). discriminate.
  - apply fragments_no_char, Hs.
Qed.

(** X12.  The elements of the path name of a CAS location are exactly
    the eight fragments of the digest, and those of its full path are
    these followed by the digest; the path name is 47 bytes long and the
    full path 88. *)
Theorem CAS_path_components (key : string) :
  let loc := CASPathTransformFunc key in
  Split_slash (PathName loc) = fragments (Filename loc) /\
  List.length (Split_slash (PathName loc)) = 8%nat /\
  Split_slash (FullPath loc) = (fragments (Filename loc) ++ [Filename loc])%list /\
  String.length (PathName loc) = 47%nat /\
  String.length (FullPath loc) = 88%nat.
Proof.
  cbv zeta. destruct (digest_facts key) as (L & P & Hs & _).
  pose proof (fragments_no_char _ _ Hs) as F.
  assert (S : Split_slash (PathName (CASPathTransformFunc key))
              = fragments (Filename (CASPathTransformFunc key))).
  { rewrite P. apply Split_Join; [|exact F].
    rewrite (fragments_40 _ L). discriminate. }
  assert (N : String.length (PathName (CASPathTransformFunc key)) = 47%nat).
  { rewrite P, (fragments_40 _ L). cbn [Join].
    rewrite !length_append. unfold slice.
    rewrite !length_substring by (rewrite L; lia). reflexivity. }
  split; [exact S|]. split; [rewrite S, (fragments_40 _ L); reflexivity|].
  split; [|split; [exact N|]].
  - unfold FullPath. rewrite P.
    rewrite <- Join_snoc by (rewrite (fragments_40 _ L); discriminate).
    apply Split_Join.
    + rewrite (fragments_40 _ L). discriminate.
    + apply Forall_app. split; [exact F|]. repeat constructor. exact Hs.
  - unfold FullPath. rewrite !length_append, N, L. reflexivity.
Qed.

Section RootNames.

Lemma sanitize_has_slash (path : string) :
  has_char "/"%char (sanitize path) = has_char "/"%char path.
Proof.
  induction path as [|c r IH]; [reflexivity|].
  rewrite sanitize_cons. cbn [has_char]. rewrite IH.
  destruct (Ascii.eqb_spec c ":"%char) as [->|]; reflexivity.
Qed.

Lemma sanitize_length (path : string) :
  String.length (sanitize path) = String.length path.
Proof.
  induction path as [|c r IH]; [reflexivity|].
  rewrite sanitize_cons. cbn [String.length]. rewrite IH. reflexivity.
Qed.

Lemma sanitize_append (a b : string) :
  sanitize (a ++ b) = sanitize a ++ sanitize b.
Proof.
  induction a as [|c r IH]; [reflexivity|].
  rewrite append_cons, !sanitize_cons, append_cons, IH. reflexivity.
Qed.

(** A name made of a string without separator and a suffix of letters. *)
Lemma suffixed_plain (r suffix : string) (e : ascii) :
  has_char "/"%char r = false -> has_char "/"%char suffix = false ->
  last_char suffix = Some e -> e <> "."%char ->
  plain_name (r ++ suffix) = true.
Proof.
  intros Hr Hs Hl He. unfold plain_name.
  rewrite has_char_append, Hr, Hs.
  assert (Hn : suffix <> "") by (intros ->; discriminate Hl).
  pose proof (last_char_app r suffix Hn) as La. rewrite Hl in La.
  destruct (String.eqb_spec (r ++ suffix) "") as [E|_];
    [rewrite E in La; discriminate La|].
  destruct (String.eqb_spec (r ++ suffix) ".") as [E|_];
    [rewrite E in La; injection La as <-; contradiction|].
  destruct (String.eqb_spec (r ++ suffix) "..") as [E|_];
    [rewrite E in La; injection La as <-; contradiction|].
  reflexivity.
Qed.

Lemma filepath_Join_single_plain (x : string) :
  plain_name x = true -> filepath.Join [x] = x.
Proof.
  intros Hx. rewrite filepath_Join_head by apply (plain_name_spec x Hx).
  apply (Clean_plain [x]); [discriminate|]. repeat constructor. exact Hx.
Qed.

Lemma strip_id (s : string) :
  Forall (fun c => allowed c = true) (chars s) -> strip s = s.
Proof.
  induction s as [|c r IH]; cbn [chars strip]; intros F; [reflexivity|].
  inversion F as [|? ? Hc Fr]; subst. rewrite Hc, (IH Fr). reflexivity.
Qed.

End RootNames.

(** X13.  [NewStore] with a root that has no separator: the root kept has
    no [:], the storage directory is the sanitized root followed by
    [_storage] and the network directory the sanitized root followed by
    [_network]; both are single names, they differ from each other and
    from the root. *)
Theorem NewStore_directories (opts : StoreOpts.t) :
  has_char "/"%char (StoreOpts.Root opts) = false ->
  let s := NewStore opts in
  has_char ":"%char (Store.Root s) = false /\
  Store.storageDir s = Store.Root s ++ "_storage" /\
  Store.networkDir s = Store.Root s ++ "_network" /\
  plain_name (Store.storageDir s) = true /\
  plain_name (Store.networkDir s) = true /\
  Store.storageDir s <> Store.networkDir s /\
  Store.storageDir s <> Store.Root s /\
  Store.networkDir s <> Store.Root s.
Proof.
  intros H. cbv zeta. unfold NewStore. cbn [Store.Root Store.storageDir Store.networkDir].
  set (r := sanitize (StoreOpts.Root opts)).
  assert (Hr : has_char "/"%char r = false)
    by (unfold r; rewrite sanitize_has_slash; exact H).
  assert (Ps : plain_name (r ++ "_storage") = true)
    by (apply (suffixed_plain r "_storage" "e"%char); auto; discriminate).
  assert (Pn : plain_name (r ++ "_network") = true)
    by (apply (suffixed_plain r "_network" "k"%char); auto; discriminate).
  rewrite !filepath_Join_single_plain by assumption.
  split; [apply sanitize_no_colon|].
  split; [reflexivity|]. split; [reflexivity|].
  split; [exact Ps|]. split; [exact Pn|].
  split; [|split].
  - intros E. apply (f_equal last_char) in E.
    rewrite !last_char_app in E by discriminate. discriminate E.
  - intros E. apply (f_equal String.length) in E.
    rewrite length_append in E. cbn in E. lia.
  - intros E. apply (f_equal String.length) in E.
    rewrite length_append in E. cbn in E. lia.
Qed.

Lemma NewStore_directories_witness :
  Store.storageDir (NewStore net_opts) = Store.Root (NewStore net_opts) ++ "_storage".
Proof.
  exact (proj1 (proj2 (NewStore_directories net_opts eq_refl))).
Defined.

(** X14.  The layout of an object under the CAS transform: when the
    storage directory and the sanitized namespace are single names, the
    object is the file
    [storageDir/namespace/f1/f2/f3/f4/f5/f6/f7/f8/digest], and the
    directory made for it is that path without the last element. *)
Theorem CAS_object_path (s : Store.t) (id key : string) :
  plain_name (Store.storageDir s) = true ->
  plain_name (sanitize id) = true ->
  let loc := CASPathTransformFunc key in
  pathNameWithRoot s id loc
    = Store.storageDir s ++ "/" ++ sanitize id ++ "/" ++ PathName loc /\
  fullPathWithRoot s id loc
    = Store.storageDir s ++ "/" ++ sanitize id ++ "/" ++ PathName loc
      ++ "/" ++ Filename loc.
Proof.
  intros Hd Hi. cbv zeta.
  destruct (digest_facts key) as (L & P & Hs & Hc).
  set (loc := CASPathTransformFunc key) in *.
  assert (Ne : fragments (Filename loc) <> [])
    by (rewrite (fragments_40 _ L); discriminate).
  assert (Sf : sanitize (Filename loc) = Filename loc)
    by (apply sanitize_id, Hc).
  assert (Sp : sanitize (PathName loc) = Join (fragments (Filename loc)) "/").
  { rewrite <- P. apply sanitize_id. rewrite P.
    apply has_char_Join; [reflexivity|]. apply fragments_no_char, Hc. }
  assert (F : Forall (fun x => plain_name x = true)
                     (fragments (Filename loc)))
    by (apply fragments_plain; assumption).
  assert (Pf : plain_name (sanitize (Filename loc)) = true)
    by (rewrite Sf; apply plain_of_length; [rewrite L; lia|exact Hs]).
  destruct (object_path_plain s id loc (fragments (Filename loc))
              Hd Hi Ne F Sp Pf) as [E1 E2].
  - rewrite E1, E2, Sf, !Join_cons, <- P by (try discriminate; exact Ne).
    rewrite !append_assoc. split; reflexivity.
Qed.

Lemma CAS_object_path_witness :
  fullPathWithRoot cas_store "peerA" (CASPathTransformFunc "hello.txt")
  = Store.storageDir cas_store ++ "/" ++ sanitize "peerA" ++ "/"
    ++ PathName (CASPathTransformFunc "hello.txt")
    ++ "/" ++ Filename (CASPathTransformFunc "hello.txt").
Proof.
  exact (proj2 (CAS_object_path cas_store "peerA" "hello.txt"
                  eq_refl eq_refl)).
Defined.

(** X15.  The layout of an object under the identity transform: when the
    storage directory, the sanitized namespace and the sanitized key are
    single names, the object is the file [key] in a directory of its own,
    [storageDir/namespace/key/key]. *)
Theorem Default_object_path (s : Store.t) (id key : string) :
  plain_name (Store.storageDir s) = true ->
  plain_name (sanitize id) = true ->
  plain_name (sanitize key) = true ->
  let loc := DefaultPathTransformFunc key in
  pathNameWithRoot s id loc
    = Store.storageDir s ++ "/" ++ sanitize id ++ "/" ++ sanitize key /\
  fullPathWithRoot s id loc
    = Store.storageDir s ++ "/" ++ sanitize id ++ "/" ++ sanitize key
      ++ "/" ++ sanitize key.
Proof.
  intros Hd Hi Hk. cbv zeta.
  assert (F : Forall (fun x => plain_name x = true) [sanitize key])
    by (repeat constructor; exact Hk).
  assert (Ne : [sanitize key] <> []) by discriminate.
  destruct (object_path_plain s id (DefaultPathTransformFunc key)
              [sanitize key] Hd Hi Ne F eq_refl Hk) as [E1 E2].
  - rewrite E1, E2. cbn [DefaultPathTransformFunc Filename].
    rewrite !Join_cons by discriminate. cbn [Join].
    rewrite !append_assoc. split; reflexivity.
Qed.

Lemma Default_object_path_witness :
  fullPathWithRoot net_store "peerA" (DefaultPathTransformFunc "host:3000")
  = Store.storageDir net_store ++ "/" ++ sanitize "peerA" ++ "/"
    ++ sanitize "host:3000" ++ "/" ++ sanitize "host:3000".
Proof.
  exact (proj2 (Default_object_path net_store "peerA" "host:3000"
                  eq_refl eq_refl eq_refl)).
Defined.

(** X16.  The strict sanitizer is idempotent: its output is a fixed
    point, so sanitizing twice is sanitizing once. *)
Theorem sanitizePathComponent_idempotent (input : string) :
  sanitizePathComponent (sanitizePathComponent input)
  = sanitizePathComponent input.
Proof.
  pose proof (sanitizePathComponent_allowed input) as A.
  pose proof (sanitizePathComponent_not_reserved input) as R.
  set (out := sanitizePathComponent input) in *.
  unfold sanitizePathComponent at 1. rewrite (strip_id out A).
  fold (reserved out). rewrite R. reflexivity.
Qed.

(** X17.  The lenient sanitizer keeps the length of its input, works
    piece by piece on a concatenation, and is idempotent. *)
Theorem sanitize_structure (a b : string) :
  String.length (sanitize a) = String.length a /\
  sanitize (a ++ b) = sanitize a ++ sanitize b /\
  sanitize (sanitize a) = sanitize a.
Proof.
  split; [apply sanitize_length|]. split; [apply sanitize_append|].
  apply sanitize_id, sanitize_no_colon.
Qed.

(* ===================================================================== *)
(** * Objects at different paths do not interfere *)
(* ===================================================================== *)

Section Isolation.

Implicit Types (t : gmap (list string) node) (loc cur : list string).

(** Resolving names only goes down: the location reached is the start
    followed by the names. *)
Lemma walk_plain t comps : forall cur loc,
  Forall (fun x => plain_name x = true) comps ->
  os.walk t cur comps = Ok loc -> loc = (cur ++ comps)%list.
Proof.
  induction comps as [|x rest IH]; intros cur loc F H.
  - injection H as <-. rewrite app_nil_r. reflexivity.
  - inversion F as [|? ? Hx Fr]; subst. cbn [os.walk] in H.
    destruct (os.node_at t cur) as [[d|]|]; try discriminate H.
    unfold os.step in H.
    destruct (plain_name_spec x Hx) as (_ & _ & E1 & E2).
    rewrite E1, E2 in H. apply (IH _ _ Fr) in H.
    rewrite <- app_assoc in H. exact H.
Qed.

Lemma resolve_plain fs comps loc :
  comps <> [] ->
  Forall (fun x => plain_name x = true) comps ->
  os.resolve fs (Join comps "/") = Ok loc -> loc = (cwd fs ++ comps)%list.
Proof.
  intros Hne F. destruct comps as [|x l]; [contradiction|].
  inversion F as [|? ? Hx Fl]; subst.
  destruct (Join_plain_head x l Hx) as [E R].
  unfold os.resolve, os.start. rewrite E, R.
  rewrite Split_Join; [apply walk_plain, F|discriminate|].
  eapply Forall_impl; [exact F|]. intros a Ha. apply (plain_name_spec a Ha).
Qed.

(** The disk after [Write]: what [MkdirAll] left, with the bytes of the
    reader in the file the object path leads to when that file could be
    opened. *)
Lemma Write_disk fs s id key r transform :
  Store.PathTransformFunc s = Some transform ->
  cwd (fst (Write fs (Some s) id key r)) = cwd fs /\
  exists t1,
    (forall q n, os.node_at (tree fs) q = Some n -> os.node_at t1 q = Some n) /\
    (tree (fst (Write fs (Some s) id key r)) = t1 \/
     exists f,
       os.resolve (mkFS (cwd fs) t1) (fullPathWithRoot s id (transform key))
         = Ok f /\
       f <> [] /\ os.node_at t1 f <> Some Dir /\
       tree (fst (Write fs (Some s) id key r))
         = <[f := File (content r)]> t1).
Proof.
  intros T. unfold Write, writeStream, openFileForWriting. rewrite T.
  unfold os.MkdirAll.
  destruct (String.eqb _ "").
  { cbn [fst]. split; [reflexivity|]. exists (tree fs). split; auto. }
  destruct (os.mkdir_walk _ _ _) as [t1 e] eqn:M.
  pose proof (mkdir_walk_keeps _ _ _ _ _ M) as K.
  destruct e as [e|].
  { cbn [fst cwd tree]. split; [reflexivity|]. exists t1. split; auto. }
  destruct (os.Create _ _) as [fs2 [f|e]] eqn:C.
  - apply Create_Ok in C as (R & Hf & Hn & ->). cbn [cwd tree] in *.
    unfold io_Copy, os.write_file. cbn [fst cwd tree].
    split; [reflexivity|]. exists t1. split; [exact K|]. right.
    exists f. rewrite insert_insert_eq. auto.
  - assert (fs2 = mkFS (cwd fs) t1) as ->.
    { unfold os.Create in C.
      destruct (os.resolve _ _); [|injection C as <- _; reflexivity].
      destruct (os.node_at _ _) as [[d|]|];
        try (injection C as <- _; reflexivity); try discriminate C.
      destruct (os.node_at _ _) as [[d|]|];
        try (injection C as <- _; reflexivity); discriminate C. }
    cbn [fst cwd tree]. split; [reflexivity|]. exists t1. split; auto.
Qed.

(** A file read through a path of names is not changed by a write
    through another path of names. *)
Lemma Write_other_path fs s id key r transform comps comps2 s2 id2 pk2 d :
  Store.PathTransformFunc s = Some transform ->
  fullPathWithRoot s id (transform key) = Join comps "/" ->
  fullPathWithRoot s2 id2 pk2 = Join comps2 "/" ->
  comps <> [] -> comps2 <> [] ->
  Forall (fun x => plain_name x = true) comps ->
  Forall (fun x => plain_name x = true) comps2 ->
  comps <> comps2 ->
  os.Stat fs (fullPathWithRoot s2 id2 pk2) = Ok (File d) ->
  os.Stat (fst (Write fs (Some s) id key r)) (fullPathWithRoot s2 id2 pk2)
    = Ok (File d).
Proof.
  intros T E1 E2 N1 N2 F1 F2 Hd S.
  destruct (Write_disk fs s id key r transform T) as (Hc & t1 & K & W).
  set (fs' := fst (Write fs (Some s) id key r)) in *.
  assert (S1 : os.Stat (mkFS (cwd fs) t1) (fullPathWithRoot s2 id2 pk2)
               = Ok (File d)).
  { pose proof (Stat_keeps fs (mkFS (cwd fs) t1) d
                  (fullPathWithRoot s2 id2 pk2) eq_refl
                  (keeps_after_mkdir _ _ d K)) as X.
    rewrite S in X. destruct X as [X|X]; exact X. }
  destruct W as [W|(f & R & Hf & Hn & W)].
  - replace fs' with (mkFS (cwd fs) t1); [exact S1|].
    destruct fs' as [c' t']. cbn in Hc, W. subst. reflexivity.
  - assert (fs' = mkFS (cwd fs) (<[f := File (content r)]> t1)) as ->.
    { destruct fs' as [c' t']. cbn in Hc, W. subst. reflexivity. }
    rewrite E1 in R. apply (resolve_plain _ _ _ N1 F1) in R. cbn [cwd] in R.
    unfold os.Stat in *.
    destruct (os.resolve (mkFS (cwd fs) t1) _) as [loc|e] eqn:R2;
      [|discriminate S1].
    assert (L : loc = (cwd fs ++ comps2)%list).
    { rewrite E2 in R2. apply (resolve_plain _ _ _ N2 F2) in R2. exact R2. }
    assert (Hne : f <> loc).
    { rewrite R, L. intros E. apply app_inv_head in E. contradiction. }
    assert (D : forall q, os.node_at t1 q = Some Dir ->
                os.node_at (<[f := File (content r)]> t1) q = Some Dir).
    { intros q Hq. rewrite node_at_insert by exact Hf.
      destruct (decide (f = q)) as [->|]; [contradiction|exact Hq]. }
    unfold os.resolve, os.start in *. cbn [cwd tree] in *.
    destruct (String.eqb (fullPathWithRoot s2 id2 pk2) "");
      [discriminate R2|].
    rewrite (walk_mono _ _ D _ _ _ R2).
    rewrite node_at_insert by exact Hf.
    destruct (decide (f = loc)); [contradiction|exact S1].
Qed.

End Isolation.

Section IsolationCAS.

Lemma CAS_object_comps (s : Store.t) (id key : string) :
  plain_name (Store.storageDir s) = true ->
  plain_name (sanitize id) = true ->
  let h := Filename (CASPathTransformFunc key) in
  let comps :=
    (Store.storageDir s :: sanitize id :: fragments h ++ [h])%list in
  fullPathWithRoot s id (CASPathTransformFunc key) = Join comps "/" /\
  Forall (fun x => plain_name x = true) comps.
Proof.
  intros Hd Hi. cbv zeta.
  destruct (digest_facts key) as (L & P & Hs & Hc).
  set (loc := CASPathTransformFunc key) in *.
  assert (Ne : fragments (Filename loc) <> [])
    by (rewrite (fragments_40 _ L); discriminate).
  assert (Sf : sanitize (Filename loc) = Filename loc)
    by (apply sanitize_id, Hc).
  assert (Sp : sanitize (PathName loc) = Join (fragments (Filename loc)) "/").
  { rewrite <- P. apply sanitize_id. rewrite P.
    apply has_char_Join; [reflexivity|]. apply fragments_no_char, Hc. }
  assert (F : Forall (fun x => plain_name x = true)
                     (fragments (Filename loc)))
    by (apply fragments_plain; assumption).
  assert (Pf : plain_name (Filename loc) = true)
    by (apply plain_of_length; [rewrite L; lia|exact Hs]).
  destruct (object_path_plain s id loc (fragments (Filename loc))
              Hd Hi Ne F Sp) as [_ E2]; [rewrite Sf; exact Pf|].
  split.
  - rewrite E2, Sf.
    change (Store.storageDir s :: sanitize id
              :: fragments (Filename loc) ++ [Filename loc])%list
      with ((Store.storageDir s :: sanitize id :: fragments (Filename loc))
              ++ [Filename loc])%list.
    rewrite Join_snoc by discriminate. reflexivity.
  - repeat constructor; try assumption.
    apply Forall_app. split; [exact F|]. repeat constructor. exact Pf.
Qed.

End IsolationCAS.

(** X18.  Objects are isolated from each other under the CAS transform:
    when the storage directory and the sanitized namespaces are single
    names, a call of [Write] for one object (successful or not) leaves
    the size and bytes of every object that differs from it in the
    sanitized namespace or in the digest of the key. *)
Theorem CAS_objects_isolated (fs : FS) (s : Store.t) (id key : string)
        (r : Reader) (id2 key2 : string) (n : Z) (d : list Z) :
  Store.PathTransformFunc s = Some CASPathTransformFunc ->
  plain_name (Store.storageDir s) = true ->
  plain_name (sanitize id) = true ->
  plain_name (sanitize id2) = true ->
  sanitize id <> sanitize id2 \/
  Filename (CASPathTransformFunc key) <> Filename (CASPathTransformFunc key2) ->
  Read fs (Some s) id2 key2 = Val (n, Some (stream d), None) ->
  Read (fst (Write fs (Some s) id key r)) (Some s) id2 key2
    = Val (n, Some (stream d), None).
Proof.
  intros T Hd Hi Hi2 Hne.
  rewrite !(Read_Stat _ _ _ _ _ T).
  destruct (CAS_object_comps s id key Hd Hi) as [E1 F1].
  destruct (CAS_object_comps s id2 key2 Hd Hi2) as [E2 F2].
  destruct (os.Stat fs _) as [[d'|]|e] eqn:S; try discriminate.
  intros H. injection H as <- <-.
  rewrite (Write_other_path fs s id key r _ _ _ s id2
             (CASPathTransformFunc key2) d' T E1 E2); try assumption;
    try discriminate; [reflexivity|].
  intros E. injection E as Ei Ef. apply app_inj_tail in Ef as [_ Ef].
  destruct Hne as [Hne|Hne]; contradiction.
Qed.

Lemma CAS_objects_isolated_witness :
  let fs1 := fst (Write empty_fs (Some cas_store) "peerA" "hello.txt"
                    (stream hi)) in
  Read (fst (Write fs1 (Some cas_store) "peerB" "hello.txt"
               (stream [1; 2; 3])))
       (Some cas_store) "peerA" "hello.txt"
  = Val (2, Some (stream hi), None).
Proof.
  refine (CAS_objects_isolated _ cas_store "peerB" "hello.txt"
            (stream [1; 2; 3]) "peerA" "hello.txt" 2 hi
            eq_refl eq_refl eq_refl eq_refl (or_introl _) _).
  - vm_compute. discriminate.
  - vm_compute. reflexivity.
Defined.
